(** * ppt2video: the conversion pipeline of [src/ppt2video/__main__.py]

    A shallow embedding of the pipeline that turns a slide deck into a
    narrated video.  Pure helpers ([get_note_from_slide], [has_note], the
    selection in [main_process]) are plain functions.  Everything that
    touches the outside world (python-pptx, edge-tts, soffice, pymupdf,
    ffmpeg, temporary directories, the asyncio event loop and its default
    executor) goes through a small state-and-exception monad [M]: the
    state records the ordered trace of external effects, the queue of
    executor jobs nobody awaits and the scheduler's future choices; the
    outcomes of the external collaborators are read from an [Env] of
    oracles.  [logger.info] calls write no data the pipeline reads back
    and are left out. *)

From Stdlib Require Import Ascii.
From stdpp Require Import base list strings gmap pretty.

Local Open Scope list_scope.
#[local] Set Warnings "-register-all".

(** ** Paths, templates, command lines *)

(** A [pathlib.Path] is its sequence of parts; [p / name] appends one part. *)
Definition Path := list string.

Definition path_div (p : Path) (name : string) : Path := p ++ [name].
Infix "//" := path_div (at level 40, left associativity).

(** [str(p)]; an absolute path has the empty string as its first part. *)
Definition path_str (p : Path) : string := String.concat "/" p.

(** [s.rfind('.')], scanning from the left and remembering the last hit. *)
Fixpoint rfind_dot (s : string) (i : nat) (found : option nat) : option nat :=
  match s with
  | EmptyString => found
  | String c s' => rfind_dot s' (S i) (if Ascii.eqb c "."%char then Some i else found)
  end.

(** [Path.stem]: the final part without its last suffix. *)
Definition stem (p : Path) : string :=
  let name := List.last p "" in
  match rfind_dot name 0 None with
  | Some i =>
      if (0 <? i) && (i <? String.length name - 1) then String.substring 0 i name else name
  | None => name
  end.

(** A [string.Template], parsed: literal text and [${name}] placeholders. *)
Inductive Segment :=
| Lit (s : string)
| Var (name : string).

Definition Template := list Segment.

(** [Template.substitute(index=index)]: the only keyword the program passes
    is [index], an [int] printed in decimal; any other placeholder is a
    [KeyError], returned here as [inl name]. *)
Fixpoint substitute (t : Template) (index : nat) : string + string :=
  match t with
  | [] => inr ""
  | Lit s :: t' =>
      match substitute t' index with
      | inr r => inr (s +:+ r)
      | inl k => inl k
      end
  | Var name :: t' =>
      if String.eqb name "index" then
        match substitute t' index with
        | inr r => inr (pretty index +:+ r)
        | inl k => inl k
        end
      else inl name
  end.

(** One element of a [subprocess.run] argument list. *)
Inductive Arg :=
| AStr (s : string)
| APath (p : Path).

Definition nl : string := String (Ascii.ascii_of_nat 10) "".

Record CompletedProcess := mkCompleted {
  args : list Arg;
  returncode : Z;
  stdout : string;
  stderr : string
}.

(** ** The deck, as python-pptx exposes it *)

Record TextFrame := { text : string }.

(** [notes_text_frame] is [None] when the notes slide has no notes
    placeholder; a [TextFrame] object is always truthy. *)
Record NotesSlide := { notes_text_frame : option TextFrame }.

Record Slide := {
  has_notes_slide : bool;
  notes_slide : NotesSlide
}.

(** ** The converted document, as pymupdf exposes it *)

Record Page := { number : nat }.

Record Pixmap := { pix_page : Page; pix_dpi : Z }.

(** ** Exceptions and effects *)

Inductive Exn :=
| CalledProcessError (rc : Z) (cmd : list Arg) (output err : string)
| KeyError (key : string)
| PackageNotFoundError (p : Path)
| SynthesisError (out : Path)
| FileDataError (p : Path)
| PixmapError (page : Page)
| InvalidStateError
| ExceptionGroup (errors : list Exn).

(** The external effects a run leaves in its trace: temporary directories
    made and removed, [mkdir], the deck loaded, a synthesis run to its end,
    a subprocess launched, the converted document opened, a pixmap
    rendered and handed to the task awaiting it, a queued save run by a
    worker, a file written. *)
Inductive Event :=
| EvMkdtemp (d : Path)
| EvCleanup (d : Path)
| EvMkdir (d : Path)
| EvLoadDeck (p : Path)
| EvSynth (note : string) (out : Path) (voice : string)
| EvRun (cmd : list Arg)
| EvOpenPdf (p : Path)
| EvPixmap (page : Page) (dpi : Z)
| EvSaved (pix : Pixmap) (out : Path)
| EvSaveFailed (pix : Pixmap) (out : Path)
| EvWrite (p : Path) (lines : list string).

(** The outcomes of the external collaborators. *)
Record Env := mkEnv {
  Presentation : Path → option (list Slide);
  communicate_save : string → string → Path → bool;
  subprocess : list Arg → string → Z * string * string;
  resolve : Path → Path;
  pymupdf_open : Path → option (list Page);
  get_pixmap : Page → Z → option Pixmap;
  pix_save : Pixmap → Path → bool;
  mkdtemp : nat → Path
}.

(** What a run threads along: the effects so far, the jobs handed to the
    default executor whose futures were dropped, how many temporary
    directories were made, and the completion choices the event loop will
    make next. *)
Record World := mkWorld {
  trace : list Event;
  executor : list (Pixmap * Path);
  tmp_count : nat;
  sched : list nat
}.

Definition result (A : Type) : Type := Exn + A.

Definition M (A : Type) : Type := World → result A * World.

Definition ret {A} (a : A) : M A := λ w, (inr a, w).

Definition raise {A} (e : Exn) : M A := λ w, (inl e, w).

Definition bind {A B} (m : M A) (k : A → M B) : M B :=
  λ w, match m w with
       | (inr a, w') => k a w'
       | (inl e, w') => (inl e, w')
       end.

Notation "'let!' x ':=' m 'in' k" := (bind m (λ x, k))
  (at level 10, x pattern, m at level 100, k at level 200).
Notation "m ';;' k" := (bind m (λ _, k))
  (at level 100, k at level 200, right associativity).

(** [try: m except Exception as e], reified. *)
Definition try_ {A} (m : M A) : M (result A) :=
  λ w, let '(r, w') := m w in (inr r, w').

Definition emit (ev : Event) : M unit :=
  λ w, (inr tt, mkWorld (trace w ++ [ev]) (executor w) (tmp_count w) (sched w)).

Definition submit (job : Pixmap * Path) : M unit :=
  λ w, (inr tt, mkWorld (trace w) (executor w ++ [job]) (tmp_count w) (sched w)).

(** The event loop picks which of [n] pending tasks completes next; once
    the recorded choices are used up it takes the oldest one. *)
Definition next_choice (n : nat) : M nat :=
  λ w, match sched w with
       | [] => (inr 0, w)
       | c :: cs => (inr (c `mod` n), mkWorld (trace w) (executor w) (tmp_count w) cs)
       end.

(** The worker thread of the default executor runs the oldest dropped job.
    Whatever [pix.save] does, the outcome is stored in a future nobody
    holds: the step itself never raises. *)
Definition executor_step (env : Env) : M unit :=
  λ w, match executor w with
       | [] => (inr tt, w)
       | (pix, out) :: jobs =>
           let ev := if pix_save env pix out then EvSaved pix out
                     else EvSaveFailed pix out in
           (inr tt, mkWorld (trace w ++ [ev]) jobs (tmp_count w) (sched w))
       end.

Fixpoint mapM {A B} (f : A → M B) (l : list A) : M (list B) :=
  match l with
  | [] => ret []
  | x :: l' => let! y := f x in let! ys := mapM f l' in ret (y :: ys)
  end.

(** ** Task groups

    A task is the body of a coroutine with one suspension point; its
    effect is recorded when the event loop resumes it to its end.  Tasks
    are identified by their creation rank.  The loop ends the pending tasks
    one at a time in the order the scheduler chooses.

    A task that raises makes the group abort: the group asks for the
    cancellation of what is still pending, but that request is served by
    the loop like any other callback, so tasks whose wake-up was already
    queued still run to their end first, and those that raise add their
    error to the group's.  Once the abort is on, the scheduler therefore has
    one more choice than there are pending tasks: the last one is the
    cancellation landing, which ends every pending task at its suspension
    point with nothing more recorded (what a worker thread still computes
    for a cancelled task reaches nobody).  The group is left when no task
    is pending: with the results if no task raised, otherwise with an
    [ExceptionGroup] of the errors in the order they were raised.

    [run_tasks] is called with as much fuel as there are pending tasks,
    one unit per task ended. *)
Definition leave_group {A} (done : gmap nat A) (errors : list Exn)
    : M (gmap nat A) :=
  match errors with
  | [] => ret done
  | _ :: _ => raise (ExceptionGroup errors)
  end.

Fixpoint run_tasks {A} (fuel : nat) (pending : list (nat * M A))
    (done : gmap nat A) (errors : list Exn) : M (gmap nat A) :=
  match fuel with
  | 0 => leave_group done errors
  | S fuel' =>
      let! k := next_choice (match errors with
                             | [] => length pending
                             | _ :: _ => S (length pending)
                             end) in
      match pending !! k with
      | None => leave_group done errors
      | Some (id, body) =>
          let! r := try_ body in
          match r with
          | inl e => run_tasks fuel' (delete k pending) done (errors ++ [e])
          | inr a => run_tasks fuel' (delete k pending) (<[id:=a]> done) errors
          end
      end
  end.

(** [async with TaskGroup() as tg: <spawn>]: the block creates the tasks
    and appends their handles to a list, leaving the block waits for all of
    them.  What is left afterwards is the list of handles, in creation
    order, and the results the finished tasks hold.  A block that raises
    cancels the tasks it created before any of them has run, and the group
    is left with that one error. *)
Definition TaskGroup {A} (spawn : M (list (M A)))
    : M (list nat * gmap nat A) :=
  let! r := try_ spawn in
  match r with
  | inl e => raise (ExceptionGroup [e])
  | inr bodies =>
      let tasks := seq 0 (length bodies) in
      let! done := run_tasks (length bodies) (zip tasks bodies) ∅ [] in
      ret (tasks, done)
  end.

(** [t.result()] of the task of rank [t]. *)
Definition task_result {A} (done : gmap nat A) (t : nat) : M A :=
  match done !! t with
  | Some a => ret a
  | None => raise InvalidStateError
  end.

(** [enumerate(l, start)] and [zip(count(start), xs, ys)]. *)
Fixpoint enumerate {A} (start : nat) (l : list A) : list (nat * A) :=
  match l with
  | [] => []
  | x :: l' => (start, x) :: enumerate (S start) l'
  end.

Fixpoint zip_count {A B} (start : nat) (xs : list A) (ys : list B)
    : list (nat * A * B) :=
  match xs, ys with
  | x :: xs', y :: ys' => (start, x, y) :: zip_count (S start) xs' ys'
  | _, _ => []
  end.

(** ** The program *)

Definition get_note_from_slide (slide : Slide) : option string :=
  if negb (has_notes_slide slide) then None
  else match notes_text_frame (notes_slide slide) with
       | None => None
       | Some frame =>
           let notes_text := text frame in
           if String.length notes_text =? 0 then None else Some notes_text
       end.

Definition has_note (t : nat * option string) : bool :=
  let '(_index, note) := t in
  match note with
  | Some note => 0 <? String.length note
  | None => false
  end.

(** [has_note] is a [TypeGuard]: a tuple it accepts is read at type
    [tuple[int, str]]. *)
Definition narrow (t : nat * option string) : option (nat * string) :=
  match t with
  | (index, Some note) => Some (index, note)
  | (_, None) => None
  end.

Definition available_pages_and_notes (notes : list (option string))
    : list (nat * string) :=
  omap narrow (List.filter has_note (enumerate 1 notes)).

Definition available_pages (notes : list (option string)) : list nat :=
  map fst (available_pages_and_notes notes).

Definition available_notes (notes : list (option string)) : list string :=
  map snd (available_pages_and_notes notes).

Section Pipeline.

Context (env : Env).

Definition get_notes_from_ppt_file (ppt_file_path : Path)
    : M (list (option string)) :=
  emit (EvLoadDeck ppt_file_path);;
  match Presentation env ppt_file_path with
  | None => raise (PackageNotFoundError ppt_file_path)
  | Some slides => ret (map get_note_from_slide slides)
  end.

(** [subprocess.run(cmd, check=True, capture_output=True, encoding=...)]. *)
Definition subprocess_run (cmd : list Arg) (encoding : string)
    : M CompletedProcess :=
  emit (EvRun cmd);;
  let '(rc, out, err) := subprocess env cmd encoding in
  if (rc =? 0)%Z then ret (mkCompleted cmd rc out err)
  else raise (CalledProcessError rc cmd out err).

(** [with tempfile.TemporaryDirectory() as d: <body>]: the cleanup of the
    directory runs on every way out of the block.  [EvCleanup d] records
    that it ran; the removal itself is taken to succeed. *)
Definition with_TemporaryDirectory {A} (body : Path → M A) : M A :=
  λ w, let d := mkdtemp env (tmp_count w) in
       let '(r, w') :=
         body d (mkWorld (trace w ++ [EvMkdtemp d]) (executor w)
                         (S (tmp_count w)) (sched w)) in
       (r, mkWorld (trace w' ++ [EvCleanup d]) (executor w')
                   (tmp_count w') (sched w')).

Definition substitute_ (t : Template) (index : nat) : M string :=
  match substitute t index with
  | inr s => ret s
  | inl key => raise (KeyError key)
  end.

Definition convert_page_to_image (page : Page) (output_file_path : Path)
    (dpi : Z) : M Path :=
  emit (EvPixmap page dpi);;
  match get_pixmap env page dpi with
  | None => raise (PixmapError page)
  | Some pix =>
      submit (pix, output_file_path);;
      ret output_file_path
  end.

(** [index in pages] on a list. *)
Definition contains (pages : list nat) (index : nat) : bool :=
  existsb (Nat.eqb index) pages.

(** The [for] loop inside the task group of [convert_ppt_to_image]. *)
Fixpoint page_tasks (items : list (nat * Page)) (pages : option (list nat))
    (output_dir : Path) (output_filename : Template) (dpi : Z)
    (tasks : list (M Path)) : M (list (M Path)) :=
  match items with
  | [] => ret tasks
  | (index, page) :: rest =>
      if match pages with
         | Some pages => negb (contains pages index)
         | None => false
         end
      then page_tasks rest pages output_dir output_filename dpi tasks
      else
        let! name := substitute_ output_filename index in
        let output_file_path := output_dir // name in
        page_tasks rest pages output_dir output_filename dpi
          (tasks ++ [convert_page_to_image page output_file_path dpi])
  end.

Definition convert_ppt_to_image (ppt_file_path output_dir : Path) (dpi : Z)
    (output_filename : Template) (soffice_file_path : Path)
    (encoding : string) (pages : option (list nat)) : M (list Path) :=
  let! tasks :=
    with_TemporaryDirectory (λ tmp_dir_path,
      let! output :=
        subprocess_run [APath soffice_file_path; AStr "--headless";
                        AStr "--invisible"; AStr "--convert-to"; AStr "pdf";
                        AStr "--outdir"; APath tmp_dir_path;
                        APath ppt_file_path] encoding in
      if 0 <? String.length (stderr output) then
        raise (CalledProcessError (returncode output) (args output)
                                  (stdout output) (stderr output))
      else
        let pdf_file_path := tmp_dir_path // (stem ppt_file_path +:+ ".pdf") in
        emit (EvOpenPdf pdf_file_path);;
        match pymupdf_open env pdf_file_path with
        | None => raise (FileDataError pdf_file_path)
        | Some pdf =>
            TaskGroup (page_tasks (enumerate 1 pdf) pages output_dir
                                  output_filename dpi [])
        end) in
  mapM (task_result tasks.2) tasks.1.

Definition convert_note_to_audio (note : string) (output_file_path : Path)
    (voice : string) : M Path :=
  emit (EvSynth note output_file_path voice);;
  if communicate_save env note voice output_file_path
  then ret output_file_path
  else raise (SynthesisError output_file_path).

(** The [for] loop inside the task group of [convert_notes_to_audio]. *)
Fixpoint note_tasks (items : list (nat * string)) (output_dir : Path)
    (output_filename : Template) (voice : string) (tasks : list (M Path))
    : M (list (M Path)) :=
  match items with
  | [] => ret tasks
  | (index, note) :: rest =>
      let! name := substitute_ output_filename index in
      let output_file_path := output_dir // name in
      note_tasks rest output_dir output_filename voice
        (tasks ++ [convert_note_to_audio note output_file_path voice])
  end.

Definition convert_notes_to_audio (notes : list string) (output_dir : Path)
    (output_filename : Template) (voice : string) : M (list Path) :=
  let! tasks :=
    TaskGroup (note_tasks (enumerate 1 notes) output_dir output_filename
                          voice []) in
  mapM (task_result tasks.2) tasks.1.

Definition convert_video (image_file_path audio_file_path output_file_path
    ffmpeg_file_path : Path) (encoding : string) : M Path :=
  let! _output :=
    subprocess_run [APath ffmpeg_file_path; AStr "-loop"; AStr "1";
                    AStr "-i"; APath image_file_path;
                    AStr "-i"; APath audio_file_path;
                    AStr "-c:v"; AStr "libx264"; AStr "-c:a"; AStr "copy";
                    AStr "-shortest"; AStr "-y";
                    APath output_file_path] encoding in
  ret output_file_path.

(** The [for] loop of [convert_videos]. *)
Fixpoint videos_loop (items : list (nat * Path * Path)) (output_dir : Path)
    (output_filename : Template) (ffmpeg_file_path : Path)
    (encoding : string) (result : list Path) : M (list Path) :=
  match items with
  | [] => ret result
  | (index, image_file_path, audio_file_path) :: rest =>
      let! name := substitute_ output_filename index in
      let output_file_path := output_dir // name in
      let! p := convert_video image_file_path audio_file_path
                  output_file_path ffmpeg_file_path encoding in
      videos_loop rest output_dir output_filename ffmpeg_file_path encoding
        (result ++ [p])
  end.

Definition convert_videos (image_file_paths audio_file_paths : list Path)
    (output_dir : Path) (output_filename : Template)
    (ffmpeg_file_path : Path) (encoding : string) : M (list Path) :=
  videos_loop (zip_count 1 image_file_paths audio_file_paths) output_dir
    output_filename ffmpeg_file_path encoding [].

Definition manifest_line (p : Path) : string :=
  "file '" +:+ path_str (resolve env p) +:+ "'" +:+ nl.

Definition concat_videos (video_file_paths : list Path)
    (output_file_path ffmpeg_file_path : Path) (encoding : string) : M Path :=
  with_TemporaryDirectory (λ tmp_dir_path,
    let concat_file_path := tmp_dir_path // "concat.txt" in
    emit (EvWrite concat_file_path (map manifest_line video_file_paths));;
    let! _output :=
      subprocess_run [APath ffmpeg_file_path; AStr "-f"; AStr "concat";
                      AStr "-safe"; AStr "0"; AStr "-i";
                      APath concat_file_path;
                      AStr "-c:v"; AStr "copy"; AStr "-c:a"; AStr "aac";
                      AStr "-ar"; AStr "48000"; AStr "-y";
                      APath output_file_path] encoding in
    ret output_file_path).

Definition note_template : Template := [Lit "note-"; Var "index"; Lit ".aac"].
Definition page_template : Template := [Lit "page-"; Var "index"; Lit ".png"].
Definition video_template : Template := [Lit "video-"; Var "index"; Lit ".mp4"].

Definition main_process (ppt_file_path output_file_path soffice_file_path
    ffmpeg_file_path : Path) (dpi : Z) (voice encoding : string) : M Path :=
  with_TemporaryDirectory (λ tmp_dir_path,
    let! notes := get_notes_from_ppt_file ppt_file_path in
    let audio_dir_path := tmp_dir_path // "audios" in
    emit (EvMkdir audio_dir_path);;
    let! audio_file_paths :=
      convert_notes_to_audio (available_notes notes) audio_dir_path
        note_template voice in
    let image_dir_path := tmp_dir_path // "images" in
    emit (EvMkdir image_dir_path);;
    let! image_file_paths :=
      convert_ppt_to_image ppt_file_path image_dir_path dpi page_template
        soffice_file_path encoding (Some (available_pages notes)) in
    let video_dir_path := tmp_dir_path // "videos" in
    emit (EvMkdir video_dir_path);;
    let! video_file_paths :=
      convert_videos image_file_paths audio_file_paths video_dir_path
        video_template ffmpeg_file_path encoding in
    concat_videos video_file_paths output_file_path ffmpeg_file_path
      encoding).

End Pipeline.

(** * Vocabulary of the statements *)

(** ** Worlds *)

(** [w] after more effects, more dropped jobs and [n] scheduler choices. *)
Definition advance (w : World) (evs : list Event) (jobs : list (Pixmap * Path))
    (n : nat) : World :=
  mkWorld (trace w ++ evs) (executor w ++ jobs) (tmp_count w) (drop n (sched w)).

(** The image file [out] is on disk once a worker has run its save job. *)
Definition saved (w : World) (out : Path) : Prop :=
  ∃ pix, EvSaved pix out ∈ trace w.

(** [m] only appends to the trace, and what it appends satisfies [L]. *)
Definition emits {A} (L : list Event → Prop) (m : M A) : Prop :=
  ∀ w, ∃ evs, trace (m w).2 = trace w ++ evs ∧ L evs.

(** Events satisfying [P], then events described by [L]. *)
Definition then_ (P : Event → Prop) (L : list Event → Prop)
    : list Event → Prop :=
  λ evs, ∃ e1 e2, evs = e1 ++ e2 ∧ Forall P e1 ∧ L e2.

(** ** Tasks *)

(** A task body that cannot fail: it returns [a] after the effects [evs],
    leaving [jobs] with the executor. *)
Definition completes {A} (body : M A) (a : A) (evs : list Event)
    (jobs : list (Pixmap * Path)) : Prop :=
  ∀ w, body w = (inr a, advance w evs jobs 0).

(** The results held by the tasks after those of [order] have finished,
    the task of rank [id] with the value [val id]. *)
Definition record_results {A} (val : nat → A) (done : gmap nat A)
    (order : list nat) : gmap nat A :=
  foldl (λ d id, <[id:=val id]> d) done order.

(** ** File names and command lines the program builds *)

Definition audio_name (n : nat) : string := "note-" +:+ pretty n +:+ ".aac".

Definition page_name (n : nat) : string := "page-" +:+ pretty n +:+ ".png".

Definition video_name (n : nat) : string := "video-" +:+ pretty n +:+ ".mp4".

(** The command line of [convert_ppt_to_image]. *)
Definition soffice_cmd (soffice_file_path tmp_dir_path ppt_file_path : Path)
    : list Arg :=
  [APath soffice_file_path; AStr "--headless"; AStr "--invisible";
   AStr "--convert-to"; AStr "pdf"; AStr "--outdir"; APath tmp_dir_path;
   APath ppt_file_path].

(** The command line of [convert_video]. *)
Definition mux_cmd (ffmpeg_file_path image_file_path audio_file_path
    output_file_path : Path) : list Arg :=
  [APath ffmpeg_file_path; AStr "-loop"; AStr "1";
   AStr "-i"; APath image_file_path; AStr "-i"; APath audio_file_path;
   AStr "-c:v"; AStr "libx264"; AStr "-c:a"; AStr "copy";
   AStr "-shortest"; AStr "-y"; APath output_file_path].

(** The command line of [concat_videos]. *)
Definition concat_cmd (ffmpeg_file_path concat_file_path output_file_path : Path)
    : list Arg :=
  [APath ffmpeg_file_path; AStr "-f"; AStr "concat"; AStr "-safe"; AStr "0";
   AStr "-i"; APath concat_file_path; AStr "-c:v"; AStr "copy";
   AStr "-c:a"; AStr "aac"; AStr "-ar"; AStr "48000"; AStr "-y";
   APath output_file_path].

(** The tool accepts the command line. *)
Definition exits_zero (env : Env) (cmd : list Arg) (encoding : string) : Prop :=
  (subprocess env cmd encoding).1.1 = 0%Z.

(** What [subprocess_run] gives back for the tool's answer. *)
Definition checked (cmd : list Arg) (answer : Z * string * string)
    : result CompletedProcess :=
  let '(rc, out, err) := answer in
  if (rc =? 0)%Z then inr (mkCompleted cmd rc out err)
  else inl (CalledProcessError rc cmd out err).

(** ** Notes and pages *)

(** The three ways a slide has no note. *)
Definition no_note (slide : Slide) : Prop :=
  has_notes_slide slide = false
  ∨ notes_text_frame (notes_slide slide) = None
  ∨ ∃ frame, notes_text_frame (notes_slide slide) = Some frame
             ∧ String.length (text frame) = 0.

(** A kept pair, read back at the type of the enumeration. *)
Definition widen (t : nat * string) : nat * option string := (t.1, Some t.2).

(** The guard of the loop of [convert_ppt_to_image], read positively. *)
Definition selected (pages : option (list nat)) (index : nat) : bool :=
  match pages with
  | Some pages => contains pages index
  | None => true
  end.

(** The pages the loop renders: the pages of the converted document, with
    their 1-based index, that pass the guard. *)
Definition rendered (pages : option (list nat)) (pdf : list Page)
    : list (nat * Page) :=
  List.filter (λ t, selected pages t.1) (enumerate 1 pdf).

(** The save job the stage leaves with the executor for a rendered page. *)
Definition save_job (env : Env) (output_dir : Path) (dpi : Z)
    (t : nat * Page) : list (Pixmap * Path) :=
  match get_pixmap env t.2 dpi with
  | Some pix => [(pix, output_dir // page_name t.1)]
  | None => []
  end.

(** ** Stages in the trace *)

(** An effect of the audio branch: a synthesis. *)
Definition is_synthesis (ev : Event) : bool :=
  match ev with
  | EvSynth _ _ _ => true
  | _ => false
  end.

(** An effect of the image branch: the converter's launch, the opening of
    the converted document, a rasterization. *)
Definition is_rendering (ev : Event) : bool :=
  match ev with
  | EvOpenPdf _ | EvPixmap _ _ => true
  | EvRun (_ :: AStr "--headless" :: _) => true
  | _ => false
  end.

(** An effect of muxing: a run of the encoder in single-clip mode. *)
Definition is_muxing (ev : Event) : bool :=
  match ev with
  | EvRun (_ :: AStr "-loop" :: _) => true
  | _ => false
  end.

(** A synthesis, a rasterization or a single-clip run of the encoder. *)
Definition is_stage_event (ev : Event) : bool :=
  match ev with
  | EvSynth _ _ _ | EvPixmap _ _ => true
  | EvRun (_ :: AStr "-loop" :: _) => true
  | _ => false
  end.

Definition before_rendering (ev : Event) : Prop :=
  is_rendering ev = false ∧ is_muxing ev = false.

Definition while_rendering (ev : Event) : Prop :=
  is_synthesis ev = false ∧ is_muxing ev = false.

Definition after_rendering (ev : Event) : Prop :=
  is_synthesis ev = false ∧ is_rendering ev = false.

(** In [evs], every [p]-event comes before every [q]-event. *)
Definition all_before (p q : Event → bool) (evs : list Event) : Prop :=
  ∀ i j e1 e2,
    evs !! i = Some e1 → evs !! j = Some e2 → p e1 = true → q e2 = true → i < j.

(** Some effect of the image branch precedes some synthesis: the two
    branches were under way at the same time. *)
Definition branches_overlap (evs : list Event) : Prop :=
  ∃ i j e1 e2,
    i < j ∧ evs !! i = Some e1 ∧ evs !! j = Some e2
    ∧ is_rendering e1 = true ∧ is_synthesis e2 = true.

(** ** Sample decks and collaborators *)

(** A fresh world in which the event loop will make [choices]. *)
Definition w0 (choices : list nat) : World := mkWorld [] [] 0 choices.

(** A slide whose notes text frame reads [s]. *)
Definition slide_with (s : string) : Slide :=
  {| has_notes_slide := true;
     notes_slide := {| notes_text_frame := Some {| text := s |} |} |}.

(** A slide without a notes slide. *)
Definition slide_bare : Slide :=
  {| has_notes_slide := false;
     notes_slide := {| notes_text_frame := None |} |}.

(** Five slides, notes on the second and the fifth, an empty text frame on
    the fourth. *)
Definition deck5 : list Slide :=
  [slide_bare; slide_with "two"; slide_bare; slide_with ""; slide_with "five"].

(** Every collaborator succeeds; the deck is [slides], the converted
    document has [npages] pages. *)
Definition env_ok (slides : list Slide) (npages : nat) : Env :=
  {| Presentation := λ _, Some slides;
     communicate_save := λ _ _ _, true;
     subprocess := λ _ _, (0%Z, "", "");
     resolve := λ p, p;
     pymupdf_open := λ _, Some (map (λ n, {| number := n |}) (seq 0 npages));
     get_pixmap := λ page dpi, Some {| pix_page := page; pix_dpi := dpi |};
     pix_save := λ _ _, true;
     mkdtemp := λ n, [""; "tmp"; "tmp" +:+ pretty n] |}.

(** The converter exits with code zero after writing a warning. *)
Definition env_warn : Env :=
  {| Presentation := λ _, Some [slide_with "a"];
     communicate_save := λ _ _ _, true;
     subprocess := λ _ _, (0%Z, "", "warning");
     resolve := λ p, p;
     pymupdf_open := λ _, Some [{| number := 0 |}];
     get_pixmap := λ page dpi, Some {| pix_page := page; pix_dpi := dpi |};
     pix_save := λ _ _, true;
     mkdtemp := λ n, [""; "tmp"; "tmp" +:+ pretty n] |}.

(** The deck is one slide without notes; the converter succeeds, the
    encoder rejects a concat run. *)
Definition env_strict : Env :=
  {| Presentation := λ _, Some [slide_bare];
     communicate_save := λ _ _ _, true;
     subprocess := λ cmd _,
       match cmd with
       | _ :: AStr "-f" :: _ =>
           (1%Z, "", "Invalid data found when processing input")
       | _ => (0%Z, "", "")
       end;
     resolve := λ p, p;
     pymupdf_open := λ _, Some [{| number := 0 |}];
     get_pixmap := λ page dpi, Some {| pix_page := page; pix_dpi := dpi |};
     pix_save := λ _ _, true;
     mkdtemp := λ n, [""; "tmp"; "tmp" +:+ pretty n] |}.

(** [env] with another outcome for every [pix.save]. *)
Definition with_pix_save (env : Env) (save : Pixmap → Path → bool) : Env :=
  mkEnv (Presentation env) (communicate_save env) (subprocess env)
        (resolve env) (pymupdf_open env) (get_pixmap env) save (mkdtemp env).

(** The deck cannot be loaded; every other collaborator would succeed. *)
Definition env_unreadable : Env :=
  {| Presentation := λ _, None;
     communicate_save := λ _ _ _, true;
     subprocess := λ _ _, (0%Z, "", "");
     resolve := λ p, p;
     pymupdf_open := λ _, Some [{| number := 0 |}];
     get_pixmap := λ page dpi, Some {| pix_page := page; pix_dpi := dpi |};
     pix_save := λ _ _, true;
     mkdtemp := λ n, [""; "tmp"; "tmp" +:+ pretty n] |}.

(** A task body whose outcome is decided: it ends with [r] after the
    effects [evs], leaving [jobs] with the executor. *)
Definition settles {A} (body : M A) (r : result A) (evs : list Event)
    (jobs : list (Pixmap * Path)) : Prop :=
  ∀ w, body w = (r, advance w evs jobs 0).

(** The error a task ended with, if it raised. *)
Definition error_of {A} (r : result A) : option Exn :=
  match r with
  | inl e => Some e
  | inr _ => None
  end.

(** The error the synthesis of the note of rank [i] ends with, if it
    fails; [audio i] is the file it writes. *)
Definition synthesis_failure (env : Env) (notes : list string)
    (voice : string) (audio : nat → Path) (i : nat) : option Exn :=
  match notes !! i with
  | Some note =>
      if communicate_save env note voice (audio i) then None
      else Some (SynthesisError (audio i))
  | None => None
  end.

(** The error the rasterization of the page of rank [i] among the pages
    to render ends with, if it fails. *)
Definition pixmap_failure (env : Env) (kept : list (nat * Page)) (dpi : Z)
    (i : nat) : option Exn :=
  match kept !! i with
  | Some t =>
      match get_pixmap env t.2 dpi with
      | Some _ => None
      | None => Some (PixmapError t.2)
      end
  | None => None
  end.

(** The speech service refuses every request; the deck is two slides with
    notes. *)
Definition env_mute : Env :=
  {| Presentation := λ _, Some [slide_with "one"; slide_with "two"];
     communicate_save := λ _ _ _, false;
     subprocess := λ _ _, (0%Z, "", "");
     resolve := λ p, p;
     pymupdf_open := λ _, Some [{| number := 0 |}; {| number := 1 |}];
     get_pixmap := λ page dpi, Some {| pix_page := page; pix_dpi := dpi |};
     pix_save := λ _ _, true;
     mkdtemp := λ n, [""; "tmp"; "tmp" +:+ pretty n] |}.

(** No page can be rasterized; the deck is one slide with a note. *)
Definition env_blank : Env :=
  {| Presentation := λ _, Some [slide_with "one"];
     communicate_save := λ _ _ _, true;
     subprocess := λ _ _, (0%Z, "", "");
     resolve := λ p, p;
     pymupdf_open := λ _, Some [{| number := 0 |}];
     get_pixmap := λ _ _, None;
     pix_save := λ _ _, true;
     mkdtemp := λ n, [""; "tmp"; "tmp" +:+ pretty n] |}.

(** The first page of the converted document cannot be rasterized, the
    others can; the deck is three slides with notes. *)
Definition env_first_page_blank : Env :=
  {| Presentation := λ _, Some [slide_with "one"; slide_with "two";
                                slide_with "three"];
     communicate_save := λ _ _ _, true;
     subprocess := λ _ _, (0%Z, "", "");
     resolve := λ p, p;
     pymupdf_open := λ _, Some [{| number := 0 |}; {| number := 1 |};
                                {| number := 2 |}];
     get_pixmap := λ page dpi,
       if number page =? 0 then None
       else Some {| pix_page := page; pix_dpi := dpi |};
     pix_save := λ _ _, true;
     mkdtemp := λ n, [""; "tmp"; "tmp" +:+ pretty n] |}.

(** The encoder rejects the clip written to [video-2.mp4] and accepts
    every other command. *)
Definition env_second_clip_fails : Env :=
  {| Presentation := λ _, Some [slide_with "one"; slide_with "two"];
     communicate_save := λ _ _ _, true;
     subprocess := λ cmd _,
       match List.last cmd (AStr "") with
       | APath ["videos"; "video-2.mp4"] => (1%Z, "", "encode error")
       | _ => (0%Z, "", "")
       end;
     resolve := λ p, p;
     pymupdf_open := λ _, Some [{| number := 0 |}; {| number := 1 |}];
     get_pixmap := λ page dpi, Some {| pix_page := page; pix_dpi := dpi |};
     pix_save := λ _ _, true;
     mkdtemp := λ n, [""; "tmp"; "tmp" +:+ pretty n] |}.

(** * The voice listing: [pretty_format]

    What [pretty_format] is given: a [str], a [list] or a [dict] whose
    keys are [str] (the voice records of edge-tts are such dicts, kept in
    insertion order). *)

Inductive Obj :=
| OStr (s : string)
| OList (items : list Obj)
| ODict (entries : list (string * Obj)).

(** [s * n] on a [str]. *)
Fixpoint string_mul (s : string) (n : nat) : string :=
  match n with
  | 0 => ""
  | S n' => s +:+ string_mul s n'
  end.

(** The two [for] loops append to [result]; a key, being a [str], is
    formatted by the last branch at the same depth. *)
Fixpoint pretty_format (obj : Obj) (depth : nat) {struct obj} : string :=
  let result :=
    match obj with
    | ODict entries =>
        let result :=
          (fix items (entries : list (string * Obj)) (result : list string)
             : list string :=
             match entries with
             | [] => result
             | (k, v) :: entries' =>
                 let k_str := string_mul (string_mul " " 2) depth +:+ k in
                 match v with
                 | OStr s => items entries' (result ++ [k_str +:+ ": " +:+ s])
                 | _ =>
                     let v_str := pretty_format v (S depth) in
                     items entries' ((result ++ [k_str +:+ ":"]) ++ [v_str])
                 end
             end) entries [] in
        if depth =? 0 then result ++ [""] else result
    | OList items =>
        (fix each (items : list Obj) (result : list string) : list string :=
           match items with
           | [] => result
           | item :: items' => each items' (result ++ [pretty_format item depth])
           end) items []
    | OStr s => [string_mul (string_mul " " 2) depth +:+ s]
    end in
  String.concat nl result.

(** Induction on an [Obj] with the hypothesis for every item and every
    value. *)
Section ObjInduction.

Context (P : Obj → Prop).
Hypothesis Hstr : ∀ s, P (OStr s).
Hypothesis Hlist : ∀ items, Forall P items → P (OList items).
Hypothesis Hdict :
  ∀ entries, Forall (λ kv : string * Obj, P kv.2) entries → P (ODict entries).

Fixpoint Obj_rect_nested (obj : Obj) : P obj :=
  match obj with
  | OStr s => Hstr s
  | OList items =>
      Hlist items
        ((fix go (l : list Obj) : Forall P l :=
            match l with
            | [] => List.Forall_nil P
            | x :: l' => List.Forall_cons P x l' (Obj_rect_nested x) (go l')
            end) items)
  | ODict entries =>
      Hdict entries
        ((fix go (l : list (string * Obj))
            : Forall (λ kv : string * Obj, P kv.2) l :=
            match l with
            | [] => List.Forall_nil _
            | kv :: l' =>
                List.Forall_cons (λ kv : string * Obj, P kv.2) kv l'
                  (Obj_rect_nested kv.2) (go l')
            end) entries)
  end.

End ObjInduction.

(** The indentation of depth [depth]. *)
Definition indent (depth : nat) : string := string_mul (string_mul " " 2) depth.

(** A list of lines, or one empty line when there is none. *)
Definition or_blank (lines : list string) : list string :=
  match lines with
  | [] => [""]
  | _ => lines
  end.


(** The lines [pretty_format] prints for [obj] at [depth]. *)
Fixpoint pretty_lines (obj : Obj) (depth : nat) {struct obj} : list string :=
  match obj with
  | OStr s => [indent depth +:+ s]
  | OList items =>
      or_blank (concat (map (λ item, pretty_lines item depth) items))
  | ODict entries =>
      or_blank
        (concat (map (λ '(k, v),
                        match v with
                        | OStr s => [(indent depth +:+ k) +:+ ": " +:+ s]
                        | _ => ((indent depth +:+ k) +:+ ":")
                               :: pretty_lines v (S depth)
                        end) entries)
         ++ (if depth =? 0 then [""] else []))
  end.

(** Strings appended to [result] and the lines they hold: joined by
    newlines they read the same, and none is there without the other. *)
Definition same_text (strs lines : list string) : Prop :=
  String.concat nl strs = String.concat nl lines ∧ (strs = [] ↔ lines = []).

(** * Properties *)

(** ** Lists: [enumerate], the selection *)

Lemma length_enumerate {A} (start : nat) (l : list A) :
  length (enumerate start l) = length l.
Proof. revert start. induction l as [|x l IH]; intros start; simpl; [done|]. by rewrite IH. Qed.

Lemma enumerate_lookup {A} (start : nat) (l : list A) (i : nat) :
  enumerate start l !! i = (λ x, (start + i, x)) <$> l !! i.
Proof.
  revert start i. induction l as [|x l IH]; intros start [|i]; simpl; try done.
  - by rewrite Nat.add_0_r.
  - rewrite IH. by replace (S start + i) with (start + S i) by lia.
Qed.

Lemma elem_of_enumerate {A} (start : nat) (l : list A) (p : nat) (x : A) :
  (p, x) ∈ enumerate start l ↔ start ≤ p ∧ l !! (p - start) = Some x.
Proof.
  rewrite list_elem_of_lookup. split.
  - intros [i Hi]. rewrite enumerate_lookup in Hi.
    destruct (l !! i) as [y|] eqn:Hl; simplify_eq/=.
    split; [lia|]. by replace (start + i - start) with i by lia.
  - intros [Hle Hl]. exists (p - start). rewrite enumerate_lookup, Hl. simpl.
    do 2 f_equal. lia.
Qed.

Lemma widen_narrow (l : list (nat * option string)) :
  widen <$> omap narrow (List.filter has_note l) = List.filter has_note l.
Proof.
  induction l as [|[i [note|]] l IH]; simpl; try done.
  destruct (0 <? String.length note); simpl; [|done].
  unfold widen at 1. simpl. f_equal. exact IH.
Qed.

Lemma filter_sublist {A} (f : A → bool) (l : list A) :
  List.filter f l `sublist_of` l.
Proof.
  induction l as [|x l IH]; simpl; [done|].
  destruct (f x); by constructor.
Qed.

Lemma string_length_pos (s : string) : (0 <? String.length s) = true ↔ s ≠ "".
Proof. destruct s; simpl; split; intros; try done. Qed.

(** ** C7: note extraction *)

Lemma get_note_from_slide_None (slide : Slide) :
  get_note_from_slide slide = None ↔ no_note slide.
Proof.
  unfold get_note_from_slide, no_note.
  destruct (has_notes_slide slide); simpl; [|naive_solver].
  destruct (notes_text_frame (notes_slide slide)) as [frame|]; [|naive_solver].
  simpl. destruct (String.length (text frame) =? 0) eqn:Hlen.
  - apply Nat.eqb_eq in Hlen. naive_solver.
  - apply Nat.eqb_neq in Hlen. split; [done|]. intros [?|[?|(f & ? & ?)]]; by simplify_eq.
Qed.

Lemma get_note_from_slide_Some (slide : Slide) (s : string) :
  get_note_from_slide slide = Some s → s ≠ "".
Proof.
  unfold get_note_from_slide.
  destruct (has_notes_slide slide); simpl; [|done].
  destruct (notes_text_frame (notes_slide slide)) as [frame|]; [|done].
  simpl. destruct (String.length (text frame) =? 0) eqn:Hlen; [done|].
  intros [= <-] Hs. rewrite Hs in Hlen. done.
Qed.

(** C7.  Once the deck loads, note extraction returns one entry per slide,
    in slide order; the entry of a slide is the no-note value exactly when
    the slide has no notes slide, or its notes slide has no text frame, or
    the frame's text has length zero; every other entry is the slide's
    note text, and it is not the empty string. *)
Theorem get_notes_from_ppt_file_entries (env : Env) (ppt_file_path : Path)
    (slides : list Slide) (w : World) :
  Presentation env ppt_file_path = Some slides →
  ∃ notes : list (option string),
    (get_notes_from_ppt_file env ppt_file_path w).1 = inr notes
    ∧ length notes = length slides
    ∧ (∀ i slide, slides !! i = Some slide →
         (no_note slide → notes !! i = Some None)
         ∧ (¬ no_note slide →
              ∃ frame, notes_text_frame (notes_slide slide) = Some frame
                       ∧ notes !! i = Some (Some (text frame))))
    ∧ (∀ i e, notes !! i = Some e → e = None ∨ ∃ s, e = Some s ∧ s ≠ "").
Proof.
  intros Hload. exists (get_note_from_slide <$> slides).
  split; [|split; [|split]].
  - unfold get_notes_from_ppt_file, bind, emit. simpl. by rewrite Hload.
  - by rewrite length_fmap.
  - intros i slide Hi. rewrite list_lookup_fmap, Hi. simpl. split.
    + intros Hno. by apply get_note_from_slide_None in Hno as ->.
    + intros Hyes. rewrite <- get_note_from_slide_None in Hyes.
      unfold get_note_from_slide in *.
      destruct (has_notes_slide slide); simpl in *; [|done].
      destruct (notes_text_frame (notes_slide slide)) as [frame|]; [|done].
      exists frame. split; [done|]. simpl in *.
      by destruct (String.length (text frame) =? 0).
  - intros i e. rewrite list_lookup_fmap.
    destruct (slides !! i) as [slide|]; simpl; [|done]. intros [= <-].
    destruct (get_note_from_slide slide) as [s|] eqn:Hs; [|by left].
    right. exists s. split; [done|]. by eapply get_note_from_slide_Some.
Qed.

Lemma get_notes_from_ppt_file_entries_witness :
  ∃ notes : list (option string),
    (get_notes_from_ppt_file (env_ok deck5 5) ["deck.pptx"] (w0 [])).1 = inr notes
    ∧ length notes = 5.
Proof.
  destruct (get_notes_from_ppt_file_entries (env_ok deck5 5) ["deck.pptx"] deck5
              (w0 []) eq_refl) as (notes & Hrun & Hlen & _).
  exists notes. split; [exact Hrun | exact Hlen].
Defined.

(** ** C8: the slide selector *)

(** C8.  The selector keeps exactly the pairs (1-based position, note) of
    the entries that hold a non-empty note, in the order of the input, and
    its two projections have the same length. *)
Theorem available_pages_and_notes_spec (notes : list (option string)) :
  (∀ p s, (p, s) ∈ available_pages_and_notes notes
          ↔ 1 ≤ p ∧ notes !! (p - 1) = Some (Some s) ∧ s ≠ "")
  ∧ widen <$> available_pages_and_notes notes `sublist_of` enumerate 1 notes
  ∧ (∀ i, enumerate 1 notes !! i = (λ note, (S i, note)) <$> notes !! i)
  ∧ length (available_pages notes) = length (available_notes notes).
Proof.
  unfold available_pages, available_notes, available_pages_and_notes.
  split; [|split; [|split]].
  - intros p s. rewrite list_elem_of_omap. split.
    + intros ([p' [note|]] & Hin & Hnarrow); simplify_eq/=.
      apply list_elem_of_In, filter_In in Hin as [Hin Hhas].
      apply list_elem_of_In, elem_of_enumerate in Hin as [Hle Hl].
      simpl in Hhas. apply string_length_pos in Hhas. done.
    + intros (Hle & Hl & Hs). exists (p, Some s). split; [|done].
      apply list_elem_of_In, filter_In. split.
      * apply list_elem_of_In, elem_of_enumerate. done.
      * simpl. by apply string_length_pos.
  - rewrite widen_narrow. apply filter_sublist.
  - intros i. by rewrite enumerate_lookup.
  - by rewrite !length_fmap.
Qed.

(** ** C4: the document-conversion step *)

Lemma conversion_failure (env : Env) (ppt_file_path output_dir : Path)
    (dpi : Z) (output_filename : Template) (soffice_file_path : Path)
    (encoding : string) (pages : option (list nat)) (w : World)
    (rc : Z) (out err : string) :
  let d := mkdtemp env (tmp_count w) in
  let cmd := soffice_cmd soffice_file_path d ppt_file_path in
  subprocess env cmd encoding = (rc, out, err) →
  rc ≠ 0%Z ∨ err ≠ "" →
  convert_ppt_to_image env ppt_file_path output_dir dpi output_filename
    soffice_file_path encoding pages w
  = (inl (CalledProcessError rc cmd out err),
     mkWorld (trace w ++ [EvMkdtemp d; EvRun cmd; EvCleanup d]) (executor w)
             (S (tmp_count w)) (sched w)).
Proof.
  intros d cmd Hsub Hbad.
  unfold convert_ppt_to_image, bind, with_TemporaryDirectory, subprocess_run,
    bind, emit. simpl. fold d. fold (soffice_cmd soffice_file_path d ppt_file_path).
  fold cmd. rewrite Hsub.
  destruct (rc =? 0)%Z eqn:Hrc; simpl.
  - destruct Hbad as [Hne|Hne]; [apply Z.eqb_eq in Hrc; done|].
    apply string_length_pos in Hne. rewrite Hne. unfold raise. simpl.
    by rewrite <- !app_assoc.
  - unfold raise. simpl. by rewrite <- !app_assoc.
Qed.

(** C4.  Whatever the exit code, a conversion tool that wrote to its error
    stream makes the image stage raise [CalledProcessError] right after the
    tool ran, with no page opened or rendered; so does a non-zero exit
    code; hence a stage that returns images had exit code zero and an empty
    error stream. *)
Theorem convert_ppt_to_image_stderr_fatal (env : Env)
    (ppt_file_path output_dir : Path) (dpi : Z) (output_filename : Template)
    (soffice_file_path : Path) (encoding : string)
    (pages : option (list nat)) (w : World) :
  let d := mkdtemp env (tmp_count w) in
  let cmd := soffice_cmd soffice_file_path d ppt_file_path in
  let run := convert_ppt_to_image env ppt_file_path output_dir dpi
               output_filename soffice_file_path encoding pages w in
  let '(rc, out, err) := subprocess env cmd encoding in
  (err ≠ "" →
     run.1 = inl (CalledProcessError rc cmd out err)
     ∧ trace run.2 = trace w ++ [EvMkdtemp d; EvRun cmd; EvCleanup d])
  ∧ (rc ≠ 0%Z → run.1 = inl (CalledProcessError rc cmd out err))
  ∧ (∀ paths, run.1 = inr paths → rc = 0%Z ∧ err = "").
Proof.
  intros d cmd run.
  destruct (subprocess env cmd encoding) as [[rc out] err] eqn:Hsub.
  pose proof (conversion_failure env ppt_file_path output_dir dpi
                output_filename soffice_file_path encoding pages w rc out err
                Hsub) as Hfail.
  fold d cmd run in Hfail.
  split; [|split].
  - intros Herr. rewrite Hfail by (by right). done.
  - intros Hrc. rewrite Hfail by (by left). done.
  - intros paths Hok.
    destruct (decide (rc = 0%Z)) as [->|Hrc]; [|rewrite Hfail in Hok by (by left); done].
    split; [done|]. destruct (decide (err = "")) as [->|Herr]; [done|].
    rewrite Hfail in Hok by (by right). done.
Qed.

Lemma convert_ppt_to_image_stderr_fatal_witness :
  (convert_ppt_to_image env_warn ["deck.pptx"] ["images"] 75 page_template
     ["soffice"] "utf-8" (Some [1]) (w0 [])).1
  = inl (CalledProcessError 0
           (soffice_cmd ["soffice"] [""; "tmp"; "tmp0"] ["deck.pptx"])
           "" "warning").
Proof.
  pose proof (convert_ppt_to_image_stderr_fatal env_warn ["deck.pptx"]
                ["images"] 75 page_template ["soffice"] "utf-8" (Some [1])
                (w0 [])) as H.
  simpl in H. destruct H as [H _]. apply H. discriminate.
Defined.

(** ** Task groups complete every task, whatever the completion order *)

Lemma advance_nil (w : World) : advance w [] [] 0 = w.
Proof. destruct w. unfold advance. simpl. by rewrite !app_nil_r. Qed.

Lemma advance_advance (w : World) e1 j1 n1 e2 j2 n2 :
  advance (advance w e1 j1 n1) e2 j2 n2
  = advance w (e1 ++ e2) (j1 ++ j2) (n1 + n2).
Proof. unfold advance. simpl. by rewrite !app_assoc, drop_drop. Qed.

Lemma next_choice_spec (n : nat) (w : World) :
  0 < n → ∃ k, k < n ∧ next_choice n w = (inr k, advance w [] [] 1).
Proof.
  intros Hn. unfold next_choice, advance. destruct w as [tr ex tc [|c cs]]; simpl.
  - exists 0. split; [done|]. by rewrite !app_nil_r.
  - exists (c `mod` n). split; [apply Nat.mod_upper_bound; lia|].
    by rewrite !app_nil_r, drop_0.
Qed.

Lemma record_results_lookup {A} (val : nat → A) (order : list nat)
    (done : gmap nat A) (id : nat) :
  id ∈ order ∨ done !! id = Some (val id) →
  record_results val done order !! id = Some (val id).
Proof.
  revert done. induction order as [|x order IH]; intros done; simpl.
  - intros [Hin|Hd]; [by apply elem_of_nil in Hin | done].
  - intros [Hin|Hd]; apply IH.
    + apply elem_of_cons in Hin as [->|Hin]; [right; by rewrite lookup_insert_eq | by left].
    + right. destruct (decide (x = id)) as [->|Hne];
        [by rewrite lookup_insert_eq | by rewrite lookup_insert_ne].
Qed.

Lemma run_tasks_complete {A} (val : nat → A) (evs : nat → list Event)
    (jobs : nat → list (Pixmap * Path)) (n : nat) :
  ∀ (pending : list (nat * M A)) (done : gmap nat A) (w : World),
    length pending = n →
    (∀ id body, (id, body) ∈ pending → completes body (val id) (evs id) (jobs id)) →
    ∃ order, order ≡ₚ pending.*1
      ∧ run_tasks n pending done [] w
        = (inr (record_results val done order),
           advance w (order ≫= evs) (order ≫= jobs) n).
Proof.
  induction n as [|n IH]; intros pending done w Hlen Hbodies.
  - apply nil_length_inv in Hlen as ->. exists []. split; [done|].
    simpl. unfold ret. by rewrite advance_nil.
  - destruct (next_choice_spec (length pending) w) as (k & Hk & Hnext); [lia|].
    destruct (lookup_lt_is_Some_2 pending k Hk) as [[id body] Hlook].
    assert (Hin : (id, body) ∈ pending) by (apply list_elem_of_lookup; eauto).
    destruct (IH (delete k pending) (<[id:=val id]> done)
                (advance (advance w [] [] 1) (evs id) (jobs id) 0))
      as (order & Hperm & Hrun).
    + rewrite length_delete by eauto. lia.
    + intros id' body' Hin'. apply Hbodies.
      by eapply list_elem_of_delete_inv.
    + exists (id :: order). split.
      * rewrite (delete_Permutation pending k (id, body) Hlook).
        rewrite fmap_cons. simpl. by rewrite Hperm.
      * simpl. unfold bind at 1. rewrite Hnext, Hlook.
        unfold bind, try_. rewrite (Hbodies id body Hin). rewrite Hrun.
        rewrite !advance_advance. simpl. done.
Qed.

Lemma mapM_task_result {A} (val : nat → A) (done : gmap nat A)
    (tasks : list nat) (w : World) :
  (∀ t, t ∈ tasks → done !! t = Some (val t)) →
  mapM (task_result done) tasks w = (inr (val <$> tasks), w).
Proof.
  induction tasks as [|t tasks IH]; intros Hdone; simpl; [done|].
  unfold bind. unfold task_result at 1.
  rewrite (Hdone t) by apply list_elem_of_here.
  unfold ret at 1. rewrite IH; [done|].
  intros t' Ht'. apply Hdone. by apply list_elem_of_further.
Qed.

(** A group whose block only creates tasks that cannot fail: every task
    holds its result at the end; the effects are those of the tasks, in
    some order of completion. *)
Lemma TaskGroup_complete {A} (val : nat → A) (evs : nat → list Event)
    (jobs : nat → list (Pixmap * Path)) (spawn : M (list (M A)))
    (bodies : list (M A)) (w : World) :
  spawn w = (inr bodies, w) →
  (∀ i body, bodies !! i = Some body → completes body (val i) (evs i) (jobs i)) →
  ∃ order done,
    order ≡ₚ seq 0 (length bodies)
    ∧ (∀ t, t < length bodies → done !! t = Some (val t))
    ∧ TaskGroup spawn w
      = (inr (seq 0 (length bodies), done),
         advance w (order ≫= evs) (order ≫= jobs) (length bodies)).
Proof.
  intros Hspawn Hbodies.
  destruct (run_tasks_complete val evs jobs (length bodies)
              (zip (seq 0 (length bodies)) bodies) ∅ w)
    as (order & Hperm & Hrun).
  - rewrite length_zip, length_seq. lia.
  - intros id body Hin. apply list_elem_of_lookup in Hin as [i Hi].
    apply lookup_zip_Some in Hi as [Hid Hb].
    apply lookup_seq in Hid as [-> _]. by apply Hbodies.
  - rewrite fst_zip in Hperm by (rewrite length_seq; lia).
    exists order, (record_results val ∅ order). split; [done|]. split.
    + intros t Ht. apply record_results_lookup. left.
      rewrite Hperm. apply elem_of_seq. lia.
    + unfold TaskGroup, bind, try_. rewrite Hspawn. by rewrite Hrun.
Qed.

Lemma bind_seq_imap {A B} (f : nat → A → B) (l : list A) (g : nat → list B) :
  (∀ i x, l !! i = Some x → g i = [f i x]) →
  seq 0 (length l) ≫= g = imap f l.
Proof.
  induction l as [|x l IH] using rev_ind; intros Hg; [done|].
  rewrite length_app, seq_app, bind_app, imap_app. simpl.
  rewrite IH.
  - f_equal. rewrite app_nil_r, Nat.add_0_r. apply Hg.
    by rewrite lookup_app_r, Nat.sub_diag by lia.
  - intros i y Hi. apply Hg. by rewrite lookup_app_l by (by eapply lookup_lt_Some).
Qed.

Lemma bind_no_jobs (order : list nat) :
  order ≫= (λ _ : nat, @nil (Pixmap * Path)) = [].
Proof. induction order as [|x order IH]; [done|]. by rewrite bind_cons, IH. Qed.

(** ** C3: audio synthesis *)

Lemma substitute_note_template (index : nat) :
  substitute note_template index = inr (audio_name index).
Proof. reflexivity. Qed.

Lemma convert_note_to_audio_completes (env : Env) (note : string)
    (out : Path) (voice : string) :
  communicate_save env note voice out = true →
  completes (convert_note_to_audio env note out voice) out
    [EvSynth note out voice] [].
Proof.
  intros Hok w. unfold convert_note_to_audio, bind, emit. simpl.
  rewrite Hok. unfold ret, advance. simpl. by rewrite app_nil_r.
Qed.

Lemma note_tasks_spawn (env : Env) (output_filename : Template)
    (name : nat → string) (output_dir : Path) (voice : string)
    (items : list (nat * string)) (tasks : list (M Path)) (w : World) :
  (∀ index, substitute output_filename index = inr (name index)) →
  note_tasks env items output_dir output_filename voice tasks w
  = (inr (tasks ++ ((λ t, convert_note_to_audio env t.2
                            (output_dir // name t.1) voice) <$> items)), w).
Proof.
  intros Hname. revert tasks.
  induction items as [|[index note] items IH]; intros tasks; simpl.
  - by rewrite app_nil_r.
  - unfold bind, substitute_. rewrite Hname. unfold ret at 1.
    rewrite IH. by rewrite <- app_assoc.
Qed.

(** C3.  When every synthesis call succeeds, the audio stage returns, for
    the notes in their input order, the paths [note-1.aac], [note-2.aac],
    ... under the target directory, whatever completion order the event
    loop chooses; across the run exactly one synthesis is made per note,
    each writing the file named by the note's 1-based position. *)
Theorem convert_notes_to_audio_ordered (env : Env) (notes : list string)
    (output_dir : Path) (voice : string) (w : World) :
  (∀ i note, notes !! i = Some note →
     communicate_save env note voice (output_dir // audio_name (S i)) = true) →
  let run := convert_notes_to_audio env notes output_dir note_template voice w in
  run.1 = inr (imap (λ i _, output_dir // audio_name (S i)) notes)
  ∧ ∃ evs, trace run.2 = trace w ++ evs
       ∧ evs ≡ₚ imap (λ i note,
                        EvSynth note (output_dir // audio_name (S i)) voice) notes.
Proof.
  intros Hok run.
  set (val := λ i : nat, output_dir // audio_name (S i)).
  set (evs := λ i : nat, match notes !! i with
                         | Some note => [EvSynth note (val i) voice]
                         | None => []
                         end).
  set (bodies := (λ t : nat * string,
                    convert_note_to_audio env t.2 (output_dir // audio_name t.1) voice)
                 <$> enumerate 1 notes).
  assert (Hlen : length bodies = length notes)
    by (unfold bodies; by rewrite length_fmap, length_enumerate).
  destruct (TaskGroup_complete val evs (λ _, [])
              (note_tasks env (enumerate 1 notes) output_dir note_template voice [])
              bodies w) as (order & done & Hperm & Hdone & Hrun).
  - rewrite (note_tasks_spawn env note_template audio_name); [done|].
    apply substitute_note_template.
  - intros i body. unfold bodies. rewrite list_lookup_fmap, enumerate_lookup.
    destruct (notes !! i) as [note|] eqn:Hnote; simpl; [|done].
    intros [= <-]. unfold evs. rewrite Hnote.
    apply convert_note_to_audio_completes. by apply Hok.
  - rewrite Hlen in *.
    assert (Hrun' : run = (inr (val <$> seq 0 (length notes)),
                           advance w (order ≫= evs) [] (length notes))).
    { unfold run, convert_notes_to_audio, bind. rewrite Hrun. simpl.
      rewrite bind_no_jobs.
      apply mapM_task_result. intros t Ht. apply Hdone.
      apply elem_of_seq in Ht. lia. }
    rewrite Hrun'. simpl. split.
    + f_equal. symmetry. apply (imap_seq_0 notes val).
    + exists (order ≫= evs). split; [done|].
      rewrite Hperm. rewrite (bind_seq_imap
        (λ i note, EvSynth note (val i) voice) notes evs); [done|].
      intros i x Hi. unfold evs. by rewrite Hi.
Qed.

Lemma convert_notes_to_audio_ordered_witness :
  (convert_notes_to_audio (env_ok deck5 5) ["two"; "five"] ["audios"]
     note_template "v" (w0 [1; 0])).1
  = inr [["audios"; "note-1.aac"]; ["audios"; "note-2.aac"]].
Proof.
  apply (convert_notes_to_audio_ordered (env_ok deck5 5) ["two"; "five"]
           ["audios"] "v" (w0 [1; 0])).
  intros i note _. reflexivity.
Defined.

(** The second task finishes first, the result keeps the input order. *)
Example convert_notes_to_audio_out_of_order :
  convert_notes_to_audio (env_ok deck5 5) ["two"; "five"] ["audios"]
    note_template "v" (w0 [1; 0])
  = (inr [["audios"; "note-1.aac"]; ["audios"; "note-2.aac"]],
     mkWorld [EvSynth "five" ["audios"; "note-2.aac"] "v";
              EvSynth "two" ["audios"; "note-1.aac"] "v"] [] 0 []).
Proof. reflexivity. Qed.

(** ** Stepping through a run *)

Lemma bind_inr {A B} (m : M A) (k : A → M B) (w w' : World) (a : A) :
  m w = (inr a, w') → bind m k w = k a w'.
Proof. unfold bind. by intros ->. Qed.

Lemma bind_inl {A B} (m : M A) (k : A → M B) (w w' : World) (e : Exn) :
  m w = (inl e, w') → bind m k w = (inl e, w').
Proof. unfold bind. by intros ->. Qed.

Lemma emit_run (ev : Event) (w : World) :
  emit ev w = (inr tt, advance w [ev] [] 0).
Proof. unfold emit, advance. simpl. by rewrite app_nil_r. Qed.

Lemma with_TemporaryDirectory_run {A} (env : Env) (body : Path → M A)
    (w w' : World) (r : result A) :
  body (mkdtemp env (tmp_count w))
       (mkWorld (trace w ++ [EvMkdtemp (mkdtemp env (tmp_count w))])
                (executor w) (S (tmp_count w)) (sched w)) = (r, w') →
  with_TemporaryDirectory env body w
  = (r, advance w' [EvCleanup (mkdtemp env (tmp_count w))] [] 0).
Proof.
  intros Hbody. unfold with_TemporaryDirectory. rewrite Hbody.
  unfold advance. simpl. by rewrite app_nil_r.
Qed.

Lemma subprocess_run_zero (env : Env) (cmd : list Arg) (encoding : string)
    (w : World) (out err : string) :
  subprocess env cmd encoding = (0%Z, out, err) →
  subprocess_run env cmd encoding w
  = (inr (mkCompleted cmd 0 out err), advance w [EvRun cmd] [] 0).
Proof.
  intros Hsub. unfold subprocess_run.
  rewrite (bind_inr _ _ _ _ _ (emit_run _ _)). by rewrite Hsub.
Qed.

Lemma subprocess_run_nonzero (env : Env) (cmd : list Arg) (encoding : string)
    (w : World) (rc : Z) (out err : string) :
  subprocess env cmd encoding = (rc, out, err) → rc ≠ 0%Z →
  subprocess_run env cmd encoding w
  = (inl (CalledProcessError rc cmd out err), advance w [EvRun cmd] [] 0).
Proof.
  intros Hsub Hrc. unfold subprocess_run.
  rewrite (bind_inr _ _ _ _ _ (emit_run _ _)). rewrite Hsub.
  apply Z.eqb_neq in Hrc. by rewrite Hrc.
Qed.

(** ** C2 and C1: muxing *)

Lemma substitute_video_template (index : nat) :
  substitute video_template index = inr (video_name index).
Proof. reflexivity. Qed.

Lemma subprocess_run_ok (env : Env) (cmd : list Arg) (encoding : string)
    (w : World) :
  exits_zero env cmd encoding →
  ∃ output, subprocess_run env cmd encoding w
            = (inr output, advance w [EvRun cmd] [] 0).
Proof.
  unfold exits_zero, subprocess_run, bind, emit. simpl.
  destruct (subprocess env cmd encoding) as [[rc out] err]. simpl. intros ->.
  simpl. eexists. unfold ret, advance. simpl. by rewrite app_nil_r.
Qed.

Lemma zip_count_lookup {A B} (start : nat) (xs : list A) (ys : list B) (i : nat) :
  zip_count start xs ys !! i = (λ p, (start + i, p.1, p.2)) <$> zip xs ys !! i.
Proof.
  revert start ys i. induction xs as [|x xs IH]; intros start [|y ys] [|i];
    simpl; try done.
  - by rewrite Nat.add_0_r.
  - rewrite IH. by replace (S start + i) with (start + S i) by lia.
Qed.

Lemma zip_count_imap {A B} (start : nat) (xs : list A) (ys : list B) :
  zip_count start xs ys = imap (λ i p, (start + i, p.1, p.2)) (zip xs ys).
Proof.
  apply list_eq. intros i. by rewrite zip_count_lookup, list_lookup_imap.
Qed.

Lemma videos_loop_ok (env : Env) (output_dir ffmpeg_file_path : Path)
    (encoding : string) (items : list (nat * Path * Path))
    (result : list Path) (w : World) :
  (∀ index image audio, (index, image, audio) ∈ items →
     exits_zero env (mux_cmd ffmpeg_file_path image audio
                       (output_dir // video_name index)) encoding) →
  videos_loop env items output_dir video_template ffmpeg_file_path encoding
    result w
  = (inr (result ++ ((λ t, output_dir // video_name t.1.1) <$> items)),
     advance w
       ((λ t, EvRun (mux_cmd ffmpeg_file_path t.1.2 t.2
                       (output_dir // video_name t.1.1))) <$> items) [] 0).
Proof.
  revert result w.
  induction items as [|[[index image] audio] items IH]; intros result w Hok.
  - simpl. unfold ret. by rewrite app_nil_r, advance_nil.
  - simpl. unfold bind at 1. unfold substitute_. rewrite substitute_video_template.
    unfold ret at 1. unfold bind at 1. unfold convert_video, bind at 1.
    destruct (subprocess_run_ok env
                (mux_cmd ffmpeg_file_path image audio (output_dir // video_name index))
                encoding w) as [output Hrun]; [apply Hok, list_elem_of_here|].
    unfold mux_cmd in Hrun at 1. rewrite Hrun. unfold ret at 1.
    rewrite IH.
    + rewrite advance_advance. simpl. by rewrite <- app_assoc.
    + intros index' image' audio' Hin. apply Hok. by apply list_elem_of_further.
Qed.

(** What [convert_videos] does with any two lists when the encoder accepts
    every command it is given. *)
Lemma convert_videos_run (env : Env) (image_file_paths audio_file_paths : list Path)
    (output_dir ffmpeg_file_path : Path) (encoding : string) (w : World) :
  (∀ i image audio,
     image_file_paths !! i = Some image → audio_file_paths !! i = Some audio →
     exits_zero env (mux_cmd ffmpeg_file_path image audio
                       (output_dir // video_name (S i))) encoding) →
  convert_videos env image_file_paths audio_file_paths output_dir
    video_template ffmpeg_file_path encoding w
  = (inr (imap (λ i _, output_dir // video_name (S i))
               (zip image_file_paths audio_file_paths)),
     advance w
       (imap (λ i p, EvRun (mux_cmd ffmpeg_file_path p.1 p.2
                              (output_dir // video_name (S i))))
             (zip image_file_paths audio_file_paths)) [] 0).
Proof.
  intros Hok. unfold convert_videos. rewrite videos_loop_ok.
  - rewrite zip_count_imap. simpl. f_equal; [f_equal | f_equal].
    + apply list_eq. intros i. by rewrite list_lookup_fmap, !list_lookup_imap,
        <- option_fmap_compose.
    + apply list_eq. intros i.
      by rewrite list_lookup_fmap, !list_lookup_imap, <- option_fmap_compose.
  - intros index image audio Hin. apply list_elem_of_lookup in Hin as [i Hi].
    rewrite zip_count_lookup in Hi.
    destruct (zip image_file_paths audio_file_paths !! i) as [[x y]|] eqn:Hz;
      simplify_eq/=.
    apply lookup_zip_Some in Hz as [Hx Hy]. by apply (Hok i).
Qed.

(** C2.  Given as many images as audio files, and an encoder that accepts
    every command, the muxing stage runs the encoder once per position, in
    position order, the i-th run reading image i and audio i and writing
    [video-i.mp4]; it returns those clip paths in the same order. *)
Theorem convert_videos_pairs_by_position (env : Env)
    (image_file_paths audio_file_paths : list Path)
    (output_dir ffmpeg_file_path : Path) (encoding : string) (w : World) :
  length image_file_paths = length audio_file_paths →
  (∀ i image audio,
     image_file_paths !! i = Some image → audio_file_paths !! i = Some audio →
     exits_zero env (mux_cmd ffmpeg_file_path image audio
                       (output_dir // video_name (S i))) encoding) →
  let run := convert_videos env image_file_paths audio_file_paths output_dir
               video_template ffmpeg_file_path encoding w in
  ∃ clips,
    run.1 = inr clips
    ∧ length clips = length image_file_paths
    ∧ (∀ i, i < length image_file_paths →
         ∃ image audio,
           image_file_paths !! i = Some image
           ∧ audio_file_paths !! i = Some audio
           ∧ clips !! i = Some (output_dir // video_name (S i))
           ∧ trace run.2 !! (length (trace w) + i)
             = Some (EvRun (mux_cmd ffmpeg_file_path image audio
                              (output_dir // video_name (S i)))))
    ∧ length (trace run.2) = length (trace w) + length image_file_paths.
Proof.
  intros Hlen Hok run. unfold run. rewrite convert_videos_run by done.
  eexists. split; [done|]. simpl.
  assert (Hz : length (zip image_file_paths audio_file_paths)
               = length image_file_paths) by (rewrite length_zip; lia).
  split; [by rewrite length_imap|]. split.
  - intros i Hi.
    destruct (lookup_lt_is_Some_2 image_file_paths i Hi) as [image Himage].
    destruct (lookup_lt_is_Some_2 audio_file_paths i) as [audio Haudio]; [lia|].
    exists image, audio. split; [done|]. split; [done|].
    assert (Hzi : zip image_file_paths audio_file_paths !! i = Some (image, audio))
      by by apply lookup_zip_Some.
    split.
    + by rewrite list_lookup_imap, Hzi.
    + rewrite lookup_app_r by lia.
      replace (length (trace w) + i - length (trace w)) with i by lia.
      by rewrite list_lookup_imap, Hzi.
  - by rewrite length_app, length_imap, Hz.
Qed.

Lemma convert_videos_pairs_by_position_witness :
  ∃ clips,
    (convert_videos (env_ok deck5 5) [["page-2.png"]; ["page-5.png"]]
       [["note-1.aac"]; ["note-2.aac"]] ["videos"] video_template ["ffmpeg"]
       "utf-8" (w0 [])).1 = inr clips
    ∧ length clips = 2.
Proof.
  destruct (convert_videos_pairs_by_position (env_ok deck5 5)
              [["page-2.png"]; ["page-5.png"]] [["note-1.aac"]; ["note-2.aac"]]
              ["videos"] ["ffmpeg"] "utf-8" (w0 []) eq_refl)
    as (clips & Hrun & Hlen & _).
  - intros i image audio _ _. reflexivity.
  - exists clips. split; [exact Hrun | exact Hlen].
Defined.

(** Notes on slides 2 and 5 only (slide 4 has an empty text frame): the
    first clip is made from page 2 and the note of slide 2, the second from
    page 5 and the note of slide 5, though the second synthesis finished
    first. *)
Example main_process_deck5 :
  let run := main_process (env_ok deck5 5) ["deck.pptx"] ["out.mp4"]
               ["soffice"] ["ffmpeg"] 75 "v" "utf-8" (w0 [1; 0]) in
  run.1 = inr ["out.mp4"]
  ∧ List.filter (λ ev, match ev with
                       | EvSynth _ _ _ | EvPixmap _ _ => true
                       | EvRun (_ :: AStr "-loop" :: _) => true
                       | _ => false
                       end) (trace run.2)
    = [EvSynth "five" [""; "tmp"; "tmp0"; "audios"; "note-2.aac"] "v";
       EvSynth "two" [""; "tmp"; "tmp0"; "audios"; "note-1.aac"] "v";
       EvPixmap {| number := 1 |} 75;
       EvPixmap {| number := 4 |} 75;
       EvRun (mux_cmd ["ffmpeg"] [""; "tmp"; "tmp0"; "images"; "page-2.png"]
                [""; "tmp"; "tmp0"; "audios"; "note-1.aac"]
                [""; "tmp"; "tmp0"; "videos"; "video-1.mp4"]);
       EvRun (mux_cmd ["ffmpeg"] [""; "tmp"; "tmp0"; "images"; "page-5.png"]
                [""; "tmp"; "tmp0"; "audios"; "note-2.aac"]
                [""; "tmp"; "tmp0"; "videos"; "video-2.mp4"])].
Proof. vm_compute. done. Qed.

(** C1, as the code has it.  When the two lists differ in length and the
    encoder accepts every command, the muxing stage raises nothing: it
    pairs position by position up to the length of the shorter list, makes
    that many clips, and never looks at what is left of the longer one. *)
Theorem convert_videos_truncates (env : Env)
    (image_file_paths audio_file_paths : list Path)
    (output_dir ffmpeg_file_path : Path) (encoding : string) (w : World) :
  length image_file_paths ≠ length audio_file_paths →
  (∀ i image audio,
     image_file_paths !! i = Some image → audio_file_paths !! i = Some audio →
     exits_zero env (mux_cmd ffmpeg_file_path image audio
                       (output_dir // video_name (S i))) encoding) →
  let run := convert_videos env image_file_paths audio_file_paths output_dir
               video_template ffmpeg_file_path encoding w in
  let n := length image_file_paths `min` length audio_file_paths in
  run.1 = inr ((λ i, output_dir // video_name (S i)) <$> seq 0 n)
  ∧ trace run.2
    = trace w ++ imap (λ i p, EvRun (mux_cmd ffmpeg_file_path p.1 p.2
                                       (output_dir // video_name (S i))))
                      (zip image_file_paths audio_file_paths)
  ∧ length (trace run.2) = length (trace w) + n.
Proof.
  intros _ Hok run n. unfold run. rewrite convert_videos_run by done. simpl.
  assert (Hz : length (zip image_file_paths audio_file_paths) = n)
    by (rewrite length_zip; done).
  split; [|split].
  - f_equal. rewrite <- Hz. apply imap_seq_0.
  - done.
  - by rewrite length_app, length_imap, Hz.
Qed.

Lemma convert_videos_truncates_witness :
  (convert_videos (env_ok deck5 5) [["page-1.png"]]
     [["note-1.aac"]; ["note-2.aac"]] ["videos"] video_template ["ffmpeg"]
     "utf-8" (w0 [])).1
  = inr [["videos"; "video-1.mp4"]].
Proof.
  refine (proj1 (convert_videos_truncates (env_ok deck5 5) [["page-1.png"]]
                   [["note-1.aac"]; ["note-2.aac"]] ["videos"] ["ffmpeg"]
                   "utf-8" (w0 []) _ _)).
  - simpl. lia.
  - intros i image audio _ _. reflexivity.
Defined.

(** Two slides with notes, a converted document of one page (the converter
    left a slide out): two audio files, one image, and the run succeeds
    with a single clip. *)
Lemma main_process_mismatch_unnoticed :
  let run := main_process (env_ok [slide_with "a"; slide_with "b"] 1)
               ["deck.pptx"] ["out.mp4"] ["soffice"] ["ffmpeg"] 75 "v" "utf-8"
               (w0 []) in
  run.1 = inr ["out.mp4"]
  ∧ List.filter is_stage_event (trace run.2)
    = [EvSynth "a" [""; "tmp"; "tmp0"; "audios"; "note-1.aac"] "v";
       EvSynth "b" [""; "tmp"; "tmp0"; "audios"; "note-2.aac"] "v";
       EvPixmap {| number := 0 |} 75;
       EvRun (mux_cmd ["ffmpeg"] [""; "tmp"; "tmp0"; "images"; "page-1.png"]
                [""; "tmp"; "tmp0"; "audios"; "note-1.aac"]
                [""; "tmp"; "tmp0"; "videos"; "video-1.mp4"])].
Proof. vm_compute. done. Qed.

(** ** C6 and C10: the image stage *)

Lemma substitute_page_template (index : nat) :
  substitute page_template index = inr (page_name index).
Proof. reflexivity. Qed.

Lemma convert_page_to_image_completes (env : Env) (page : Page) (out : Path)
    (dpi : Z) (pix : Pixmap) :
  get_pixmap env page dpi = Some pix →
  completes (convert_page_to_image env page out dpi) out
    [EvPixmap page dpi] [(pix, out)].
Proof.
  intros Hpix w. unfold convert_page_to_image, bind, emit, submit. simpl.
  rewrite Hpix. simpl. unfold ret, advance. done.
Qed.

Lemma page_tasks_spawn (env : Env) (output_dir : Path) (dpi : Z)
    (pages : option (list nat)) (items : list (nat * Page))
    (tasks : list (M Path)) (w : World) :
  page_tasks env items pages output_dir page_template dpi tasks w
  = (inr (tasks ++ ((λ t, convert_page_to_image env t.2
                            (output_dir // page_name t.1) dpi)
                    <$> List.filter (λ t, selected pages t.1) items)), w).
Proof.
  revert tasks. induction items as [|[index page] items IH]; intros tasks.
  - simpl. by rewrite app_nil_r.
  - cbn [page_tasks List.filter fst]. unfold selected at 1.
    destruct pages as [pages|].
    + destruct (contains pages index); cbn [negb]; cbv beta iota.
      * unfold bind at 1, substitute_. rewrite substitute_page_template.
        unfold ret at 1. cbv beta iota. rewrite IH. by rewrite <- app_assoc.
      * apply IH.
    + unfold bind at 1, substitute_. rewrite substitute_page_template.
      unfold ret at 1. rewrite IH. by rewrite <- app_assoc.
Qed.

Lemma bind_seq_bind {A B} (f : A → list B) (l : list A) (g : nat → list B) :
  (∀ i x, l !! i = Some x → g i = f x) →
  seq 0 (length l) ≫= g = l ≫= f.
Proof.
  induction l as [|x l IH] using rev_ind; intros Hg; [done|].
  rewrite length_app, seq_app, !bind_app. simpl.
  rewrite IH.
  - f_equal. rewrite !app_nil_r. apply Hg.
    by rewrite lookup_app_r, Nat.sub_diag by lia.
  - intros i y Hi. apply Hg. by rewrite lookup_app_l by (by eapply lookup_lt_Some).
Qed.

Lemma filter_enumerate_fst {A} (sel : nat → bool) (start : nat) (l : list A) :
  (List.filter (λ t, sel t.1) (enumerate start l)).*1
  = List.filter sel (seq start (length l)).
Proof.
  revert start. induction l as [|x l IH]; intros start; simpl; [done|].
  destruct (sel start); simpl; by rewrite IH.
Qed.

(** A run of the image stage in which the converter and every
    rasterization succeed. *)
Lemma convert_ppt_to_image_run (env : Env) (ppt_file_path output_dir : Path)
    (dpi : Z) (soffice_file_path : Path) (encoding : string)
    (pages : option (list nat)) (w : World) (out : string) (pdf : list Page) :
  let d := mkdtemp env (tmp_count w) in
  let cmd := soffice_cmd soffice_file_path d ppt_file_path in
  let pdf_file_path := d // (stem ppt_file_path +:+ ".pdf") in
  subprocess env cmd encoding = (0%Z, out, "") →
  pymupdf_open env pdf_file_path = Some pdf →
  (∀ index page, (index, page) ∈ rendered pages pdf →
     is_Some (get_pixmap env page dpi)) →
  ∃ evs jobs,
    evs ≡ₚ (λ t, EvPixmap t.2 dpi) <$> rendered pages pdf
    ∧ jobs ≡ₚ rendered pages pdf ≫= save_job env output_dir dpi
    ∧ convert_ppt_to_image env ppt_file_path output_dir dpi page_template
        soffice_file_path encoding pages w
      = (inr ((λ t, output_dir // page_name t.1) <$> rendered pages pdf),
         mkWorld (trace w ++ [EvMkdtemp d; EvRun cmd; EvOpenPdf pdf_file_path]
                          ++ evs ++ [EvCleanup d])
                 (executor w ++ jobs) (S (tmp_count w))
                 (drop (length (rendered pages pdf)) (sched w))).
Proof.
  intros d cmd pdf_file_path Hsub Hopen Hpix.
  set (kept := rendered pages pdf) in *.
  set (val := λ i : nat, match kept !! i with
                         | Some t => output_dir // page_name t.1
                         | None => []
                         end).
  set (evs := λ i : nat, match kept !! i with
                         | Some t => [EvPixmap t.2 dpi]
                         | None => []
                         end).
  set (jobs := λ i : nat, match kept !! i with
                          | Some t => save_job env output_dir dpi t
                          | None => []
                          end).
  set (bodies := (λ t : nat * Page,
                    convert_page_to_image env t.2 (output_dir // page_name t.1) dpi)
                 <$> kept).
  assert (Hlen : length bodies = length kept) by (unfold bodies; by rewrite length_fmap).
  set (w1 := mkWorld (trace w ++ [EvMkdtemp d; EvRun cmd; EvOpenPdf pdf_file_path])
                     (executor w) (S (tmp_count w)) (sched w)).
  destruct (TaskGroup_complete val evs jobs
              (page_tasks env (enumerate 1 pdf) pages output_dir page_template dpi [])
              bodies w1) as (order & done & Hperm & Hdone & Hrun).
  { by rewrite page_tasks_spawn. }
  { intros i body. unfold bodies. rewrite list_lookup_fmap.
    destruct (kept !! i) as [[index page]|] eqn:Hi; simpl; [|done].
    intros [= <-]. unfold val, evs, jobs. rewrite Hi. simpl.
    destruct (Hpix index page) as [pix Hp]; [apply list_elem_of_lookup; eauto|].
    unfold save_job. simpl. rewrite Hp.
    by apply convert_page_to_image_completes. }
  rewrite Hlen in *.
  exists (order ≫= evs), (order ≫= jobs). split; [|split].
  - rewrite Hperm.
    rewrite (bind_seq_bind (λ t, [EvPixmap t.2 dpi]) kept evs).
    + clear. induction kept as [|t kept IH]; [done|].
      rewrite bind_cons, fmap_cons. simpl. by rewrite IH.
    + intros i t Hi. unfold evs. by rewrite Hi.
  - rewrite Hperm. rewrite (bind_seq_bind (save_job env output_dir dpi) kept jobs);
      [done|]. intros i t Hi. unfold jobs. by rewrite Hi.
  - unfold convert_ppt_to_image.
    erewrite bind_inr; cycle 1.
    { apply with_TemporaryDirectory_run. fold d.
      erewrite bind_inr by (apply subprocess_run_zero; exact Hsub).
      cbn [stderr String.length Nat.ltb Nat.leb]. fold pdf_file_path.
      erewrite bind_inr by apply emit_run.
      rewrite Hopen. rewrite !advance_advance.
      replace (advance _ _ _ _) with w1; [exact Hrun|].
      unfold advance, w1. simpl. by rewrite app_nil_r, <- app_assoc. }
    cbn [fst snd]. rewrite (mapM_task_result val).
    + f_equal.
      * f_equal. apply list_eq. intros i. rewrite !list_lookup_fmap.
        destruct (decide (i < length kept)) as [Hi|Hi].
        -- rewrite lookup_seq_lt by done. simpl. unfold val.
           destruct (lookup_lt_is_Some_2 kept i Hi) as [t Ht]. by rewrite Ht.
        -- rewrite lookup_seq_ge by lia. by rewrite lookup_ge_None_2 by lia.
      * unfold advance, w1. simpl. by rewrite app_nil_r, <- !app_assoc.
    + intros t Ht. apply Hdone. apply elem_of_seq in Ht. lia.
Qed.

(** C6, as the code has it.  When the converter and every rasterization
    succeed, the image stage names each image after the page's 1-based
    number in the whole converted document, [page-<p>.png] for the pages
    [p] that are in the kept-position list, in ascending page order; the
    pixmap queued for saving under [page-<p>.png] is that of page [p]. *)
Theorem convert_ppt_to_image_names_by_page_number (env : Env)
    (ppt_file_path output_dir : Path) (dpi : Z) (soffice_file_path : Path)
    (encoding : string) (pages : list nat) (w : World) (out : string)
    (pdf : list Page) :
  let d := mkdtemp env (tmp_count w) in
  subprocess env (soffice_cmd soffice_file_path d ppt_file_path) encoding
  = (0%Z, out, "") →
  pymupdf_open env (d // (stem ppt_file_path +:+ ".pdf")) = Some pdf →
  (∀ page, page ∈ pdf → is_Some (get_pixmap env page dpi)) →
  let run := convert_ppt_to_image env ppt_file_path output_dir dpi
               page_template soffice_file_path encoding (Some pages) w in
  run.1 = inr ((λ p, output_dir // page_name p)
               <$> List.filter (contains pages) (seq 1 (length pdf)))
  ∧ ∃ jobs, executor run.2 = executor w ++ jobs
      ∧ ∀ pix path, (pix, path) ∈ jobs
          ↔ ∃ p page, 1 ≤ p ∧ pdf !! (p - 1) = Some page
                      ∧ contains pages p = true
                      ∧ get_pixmap env page dpi = Some pix
                      ∧ path = output_dir // page_name p.
Proof.
  intros d Hsub Hopen Hpix run.
  destruct (convert_ppt_to_image_run env ppt_file_path output_dir dpi
              soffice_file_path encoding (Some pages) w out pdf Hsub Hopen)
    as (evs & jobs & _ & Hjobs & Hrun).
  { intros index page Hin. apply Hpix.
    apply list_elem_of_In, filter_In in Hin as [Hin _].
    apply list_elem_of_In, elem_of_enumerate in Hin as [_ Hl].
    apply list_elem_of_lookup. eauto. }
  unfold run. rewrite Hrun. simpl. split.
  - f_equal. unfold rendered.
    change (contains pages) with (selected (Some pages)).
    rewrite <- (filter_enumerate_fst (selected (Some pages)) 1 pdf).
    by rewrite <- list_fmap_compose.
  - exists jobs. split; [done|]. intros pix path. rewrite Hjobs.
    rewrite list_elem_of_bind. unfold rendered, save_job. split.
    + intros ([p page] & Hin & Hsel). simpl in Hin.
      apply list_elem_of_In, filter_In in Hsel as [Hsel Hc].
      apply list_elem_of_In, elem_of_enumerate in Hsel as [Hle Hl].
      destruct (get_pixmap env page dpi) as [pix'|] eqn:Hp;
        [|by apply elem_of_nil in Hin].
      apply list_elem_of_singleton in Hin as [= -> ->].
      exists p, page. done.
    + intros (p & page & Hle & Hl & Hc & Hp & ->).
      exists (p, page). simpl. rewrite Hp. split; [apply list_elem_of_here|].
      apply list_elem_of_In, filter_In. split; [|done].
      apply list_elem_of_In, elem_of_enumerate. done.
Qed.

Lemma convert_ppt_to_image_names_by_page_number_witness :
  (convert_ppt_to_image (env_ok deck5 5) ["deck.pptx"] ["images"] 75
     page_template ["soffice"] "utf-8" (Some [2; 5]) (w0 [])).1
  = inr [["images"; "page-2.png"]; ["images"; "page-5.png"]].
Proof.
  refine (proj1 (convert_ppt_to_image_names_by_page_number (env_ok deck5 5)
                   ["deck.pptx"] ["images"] 75 ["soffice"] "utf-8" [2; 5]
                   (w0 []) "" _ eq_refl eq_refl _)).
  intros page _. simpl. eauto.
Defined.

(** Slides 2 and 5 are kept: the second image of the kept sequence is
    [page-5.png], not [page-2.png]. *)
Lemma convert_ppt_to_image_not_named_by_ordinal :
  let run := convert_ppt_to_image (env_ok deck5 5) ["deck.pptx"] ["images"] 75
               page_template ["soffice"] "utf-8" (Some [2; 5]) (w0 []) in
  run.1 = inr [["images"; "page-2.png"]; ["images"; "page-5.png"]]
  ∧ run.1 ≠ inr [["images"; "page-1.png"]; ["images"; "page-2.png"]]
  ∧ executor run.2
    = [({| pix_page := {| number := 1 |}; pix_dpi := 75 |},
        ["images"; "page-2.png"]);
       ({| pix_page := {| number := 4 |}; pix_dpi := 75 |},
        ["images"; "page-5.png"])].
Proof. vm_compute. split; [done|]. split; [discriminate|done]. Qed.

(** C10.  When the pixmap is obtained, [convert_page_to_image] returns the
    output path with the save job still queued at the executor and nothing
    saved by the call; its outcome, and that of the whole image stage, is
    the same whatever [pix.save] will do, and the worker that later runs
    the job never raises into the pipeline. *)
Theorem convert_page_to_image_save_not_awaited (env : Env) (page : Page)
    (output_file_path : Path) (dpi : Z) (pix : Pixmap) (w : World) :
  get_pixmap env page dpi = Some pix →
  let run := convert_page_to_image env page output_file_path dpi w in
  run.1 = inr output_file_path
  ∧ trace run.2 = trace w ++ [EvPixmap page dpi]
  ∧ executor run.2 = executor w ++ [(pix, output_file_path)]
  ∧ (¬ saved w output_file_path → ¬ saved run.2 output_file_path)
  ∧ (∀ save,
       convert_page_to_image (with_pix_save env save) page output_file_path dpi w
       = run)
  ∧ (∀ save ppt_file_path output_dir output_filename soffice_file_path
       encoding pages w',
       convert_ppt_to_image (with_pix_save env save) ppt_file_path output_dir
         dpi output_filename soffice_file_path encoding pages w'
       = convert_ppt_to_image env ppt_file_path output_dir dpi
           output_filename soffice_file_path encoding pages w')
  ∧ (∀ w', (executor_step env w').1 = inr tt).
Proof.
  intros Hpix run. unfold run.
  rewrite (convert_page_to_image_completes env page output_file_path dpi pix Hpix w).
  simpl. repeat split; try done.
  - intros Hno [pix' Hin]. apply Hno. exists pix'.
    apply elem_of_app in Hin as [Hin|Hin]; [done|].
    apply list_elem_of_singleton in Hin. discriminate.
  - intros save. unfold convert_page_to_image. simpl.
    unfold bind, emit, submit. simpl. rewrite Hpix. done.
  - intros w'. unfold executor_step.
    destruct (executor w') as [|[pix' out'] jobs]; done.
Qed.

(** Every save fails, and the stage still returns its paths. *)
Lemma convert_page_to_image_save_not_awaited_witness :
  let env := with_pix_save (env_ok deck5 5) (λ _ _, false) in
  let run := convert_page_to_image env {| number := 1 |}
               ["images"; "page-2.png"] 75 (w0 []) in
  run.1 = inr ["images"; "page-2.png"]
  ∧ executor run.2
    = [({| pix_page := {| number := 1 |}; pix_dpi := 75 |},
        ["images"; "page-2.png"])]
  ∧ executor_step env run.2
    = (inr tt,
       mkWorld [EvPixmap {| number := 1 |} 75;
                EvSaveFailed {| pix_page := {| number := 1 |}; pix_dpi := 75 |}
                  ["images"; "page-2.png"]] [] 0 []).
Proof.
  intros env run.
  destruct (convert_page_to_image_save_not_awaited env {| number := 1 |}
              ["images"; "page-2.png"] 75
              {| pix_page := {| number := 1 |}; pix_dpi := 75 |} (w0 []) eq_refl)
    as (Hres & _ & Hexec & _).
  split; [exact Hres|]. split; [exact Hexec|]. reflexivity.
Defined.

(** ** What a computation adds to the trace *)

Section Emits.

Context (P : Event → Prop).

Lemma emits_ret {A} (a : A) : emits (Forall P) (ret a).
Proof. intros w. exists []. simpl. by rewrite app_nil_r. Qed.

Lemma emits_raise {A} (e : Exn) : emits (Forall P) (@raise A e).
Proof. intros w. exists []. simpl. by rewrite app_nil_r. Qed.

Lemma emits_emit (ev : Event) : P ev → emits (Forall P) (emit ev).
Proof. intros Hev w. exists [ev]. simpl. split; [done|]. by constructor. Qed.

Lemma emits_submit (job : Pixmap * Path) : emits (Forall P) (submit job).
Proof. intros w. exists []. simpl. by rewrite app_nil_r. Qed.

Lemma emits_next_choice (n : nat) : emits (Forall P) (next_choice n).
Proof.
  intros w. exists []. unfold next_choice.
  destruct (sched w); simpl; by rewrite app_nil_r.
Qed.

Lemma emits_bind {A B} (m : M A) (k : A → M B) :
  emits (Forall P) m → (∀ a, emits (Forall P) (k a)) →
  emits (Forall P) (bind m k).
Proof.
  intros Hm Hk w. destruct (Hm w) as (e1 & Ht1 & HP1). unfold bind.
  destruct (m w) as [[e|a] w1]; simpl in *; [by exists e1|].
  destruct (Hk a w1) as (e2 & Ht2 & HP2). exists (e1 ++ e2).
  rewrite Ht2, Ht1, app_assoc. split; [done|]. by apply Forall_app.
Qed.

Lemma emits_try {A} (m : M A) : emits (Forall P) m → emits (Forall P) (try_ m).
Proof.
  intros Hm w. destruct (Hm w) as (e1 & Ht1 & HP1). exists e1.
  unfold try_. by destruct (m w).
Qed.

Lemma emits_mapM {A B} (f : A → M B) (l : list A) :
  (∀ x, emits (Forall P) (f x)) → emits (Forall P) (mapM f l).
Proof.
  intros Hf. induction l as [|x l IH]; simpl; [apply emits_ret|].
  apply emits_bind; [done|]. intros y.
  apply emits_bind; [done|]. intros ys. apply emits_ret.
Qed.

Lemma emits_task_result {A} (done : gmap nat A) (t : nat) :
  emits (Forall P) (task_result done t).
Proof.
  unfold task_result. destruct (done !! t); [apply emits_ret | apply emits_raise].
Qed.

Lemma emits_substitute_ (t : Template) (index : nat) :
  emits (Forall P) (substitute_ t index).
Proof.
  unfold substitute_. destruct (substitute t index);
    [apply emits_raise | apply emits_ret].
Qed.

Lemma emits_leave_group {A} (done : gmap nat A) (errors : list Exn) :
  emits (Forall P) (leave_group done errors).
Proof. destruct errors; [apply emits_ret | apply emits_raise]. Qed.

Lemma emits_run_tasks {A} (fuel : nat) :
  ∀ (pending : list (nat * M A)) (done : gmap nat A) (errors : list Exn),
    Forall (λ t, emits (Forall P) t.2) pending →
    emits (Forall P) (run_tasks fuel pending done errors).
Proof.
  induction fuel as [|fuel IH]; intros pending done errors Hbodies; simpl.
  - apply emits_leave_group.
  - apply emits_bind; [apply emits_next_choice|]. intros k.
    destruct (pending !! k) as [[id body]|] eqn:Hk; [|apply emits_leave_group].
    apply emits_bind.
    + apply emits_try.
      apply (proj1 (Forall_lookup _ _) Hbodies k (id, body) Hk).
    + assert (Hrest : Forall (λ t, emits (Forall P) t.2) (delete k pending)).
      { eapply Forall_forall. intros t Ht.
        apply (proj1 (Forall_forall _ _) Hbodies).
        by eapply list_elem_of_delete_inv. }
      intros [e|a]; by apply IH.
Qed.

Lemma emits_TaskGroup {A} (spawn : M (list (M A))) :
  emits (Forall P) spawn →
  (∀ w bodies, (spawn w).1 = inr bodies → Forall (emits (Forall P)) bodies) →
  emits (Forall P) (TaskGroup spawn).
Proof.
  intros Hspawn Hbodies w. unfold TaskGroup, bind, try_.
  destruct (Hspawn w) as (e1 & Ht1 & HP1). specialize (Hbodies w).
  destruct (spawn w) as [[e|bodies] w1]; simpl in *; [by exists e1|].
  specialize (Hbodies bodies eq_refl).
  destruct (emits_run_tasks (length bodies) (zip (seq 0 (length bodies)) bodies)
              ∅ []) with (w := w1) as (e2 & Ht2 & HP2).
  { apply Forall_forall. intros [id body] Hin. simpl.
    apply (proj1 (Forall_forall _ _) Hbodies). by eapply elem_of_zip_r. }
  exists (e1 ++ e2). split; [|by apply Forall_app].
  destruct (run_tasks _ _ _ _ w1) as [[e|done] w2]; simpl in *;
    by rewrite Ht2, Ht1, app_assoc.
Qed.

Lemma emits_subprocess_run (env : Env) (cmd : list Arg) (encoding : string) :
  P (EvRun cmd) → emits (Forall P) (subprocess_run env cmd encoding).
Proof.
  intros Hcmd. unfold subprocess_run. apply emits_bind; [by apply emits_emit|].
  intros _. destruct (subprocess env cmd encoding) as [[rc out] err].
  destruct (rc =? 0)%Z; [apply emits_ret | apply emits_raise].
Qed.

End Emits.

Lemma emits_with_TemporaryDirectory {A} (env : Env) (L : list Event → Prop)
    (body : Path → M A) :
  (∀ d, emits L (body d)) →
  (∀ d evs, L evs → L (EvMkdtemp d :: evs ++ [EvCleanup d])) →
  emits L (with_TemporaryDirectory env body).
Proof.
  intros Hbody Hclosed w. unfold with_TemporaryDirectory.
  set (d := mkdtemp env (tmp_count w)).
  set (w1 := mkWorld _ _ _ _).
  destruct (Hbody d w1) as (evs & Ht & HL).
  exists (EvMkdtemp d :: evs ++ [EvCleanup d]). split; [|by apply Hclosed].
  destruct (body d w1) as [r w2]. simpl in *. rewrite Ht. unfold w1. simpl.
  by rewrite <- !app_assoc.
Qed.

Lemma emits_then_bind {A B} (P : Event → Prop) (L : list Event → Prop)
    (m : M A) (k : A → M B) :
  L [] → emits (Forall P) m → (∀ a, emits (then_ P L) (k a)) →
  emits (then_ P L) (bind m k).
Proof.
  intros Hnil Hm Hk w. destruct (Hm w) as (e1 & Ht1 & HP1). unfold bind.
  destruct (m w) as [[e|a] w1]; simpl in *.
  - exists e1. split; [done|]. exists e1, []. by rewrite app_nil_r.
  - destruct (Hk a w1) as (e2 & Ht2 & (f1 & f2 & -> & HPf & HL)).
    exists (e1 ++ f1 ++ f2). rewrite Ht2, Ht1, <- app_assoc. split; [done|].
    exists (e1 ++ f1), f2. rewrite <- app_assoc. split; [done|].
    split; [by apply Forall_app | done].
Qed.

Lemma emits_then_skip {A} (P : Event → Prop) (L : list Event → Prop) (m : M A) :
  emits L m → emits (then_ P L) m.
Proof.
  intros Hm w. destruct (Hm w) as (evs & Ht & HL). exists evs. split; [done|].
  exists [], evs. by split.
Qed.

(** ** C9: the order of the stages *)

Section Stages.

Context (env : Env) (P : Event → Prop).

Lemma emits_get_notes_from_ppt_file (ppt_file_path : Path) :
  P (EvLoadDeck ppt_file_path) →
  emits (Forall P) (get_notes_from_ppt_file env ppt_file_path).
Proof.
  intros HP. unfold get_notes_from_ppt_file.
  apply emits_bind; [by apply emits_emit|]. intros _.
  destruct (Presentation env ppt_file_path); [apply emits_ret | apply emits_raise].
Qed.

Lemma emits_convert_note_to_audio (note : string) (out : Path) (voice : string) :
  P (EvSynth note out voice) →
  emits (Forall P) (convert_note_to_audio env note out voice).
Proof.
  intros HP. unfold convert_note_to_audio.
  apply emits_bind; [by apply emits_emit|]. intros _.
  destruct (communicate_save env note voice out);
    [apply emits_ret | apply emits_raise].
Qed.

Lemma emits_convert_page_to_image (page : Page) (out : Path) (dpi : Z) :
  P (EvPixmap page dpi) →
  emits (Forall P) (convert_page_to_image env page out dpi).
Proof.
  intros HP. unfold convert_page_to_image.
  apply emits_bind; [by apply emits_emit|]. intros _.
  destruct (get_pixmap env page dpi); [|apply emits_raise].
  apply emits_bind; [apply emits_submit|]. intros _. apply emits_ret.
Qed.

Lemma note_tasks_bodies (Q : M Path → Prop) (output_dir : Path)
    (output_filename : Template) (voice : string)
    (items : list (nat * string)) :
  (∀ note out, Q (convert_note_to_audio env note out voice)) →
  ∀ tasks w bodies,
    Forall Q tasks →
    (note_tasks env items output_dir output_filename voice tasks w).1 = inr bodies →
    Forall Q bodies.
Proof.
  intros HQ. induction items as [|[index note] items IH];
    intros tasks w bodies Htasks; simpl.
  - by intros [= <-].
  - unfold bind at 1, substitute_.
    destruct (substitute output_filename index) as [key|name]; simpl; [done|].
    apply IH. apply Forall_app. split; [done|]. by constructor.
Qed.

Lemma emits_note_tasks (output_dir : Path) (output_filename : Template)
    (voice : string) (items : list (nat * string)) (tasks : list (M Path)) :
  emits (Forall P) (note_tasks env items output_dir output_filename voice tasks).
Proof.
  revert tasks. induction items as [|[index note] items IH]; intros tasks; simpl.
  - apply emits_ret.
  - apply emits_bind; [apply emits_substitute_|]. intros name. apply IH.
Qed.

Lemma emits_convert_notes_to_audio (notes : list string) (output_dir : Path)
    (output_filename : Template) (voice : string) :
  (∀ note out, P (EvSynth note out voice)) →
  emits (Forall P)
    (convert_notes_to_audio env notes output_dir output_filename voice).
Proof.
  intros HP. unfold convert_notes_to_audio. apply emits_bind.
  - apply emits_TaskGroup; [apply emits_note_tasks|].
    intros w bodies. apply note_tasks_bodies; [|done].
    intros note out. by apply emits_convert_note_to_audio.
  - intros tasks. apply emits_mapM. intros t. apply emits_task_result.
Qed.

Lemma page_tasks_bodies (Q : M Path → Prop) (output_dir : Path)
    (output_filename : Template) (dpi : Z) (pages : option (list nat))
    (items : list (nat * Page)) :
  (∀ page out, Q (convert_page_to_image env page out dpi)) →
  ∀ tasks w bodies,
    Forall Q tasks →
    (page_tasks env items pages output_dir output_filename dpi tasks w).1
    = inr bodies →
    Forall Q bodies.
Proof.
  intros HQ. induction items as [|[index page] items IH];
    intros tasks w bodies Htasks; simpl.
  - by intros [= <-].
  - destruct (match pages with
              | Some pages0 => negb (contains pages0 index)
              | None => false
              end); [by apply IH|].
    unfold bind at 1, substitute_.
    destruct (substitute output_filename index) as [key|name]; simpl; [done|].
    apply IH. apply Forall_app. split; [done|]. by constructor.
Qed.

Lemma emits_page_tasks (output_dir : Path) (output_filename : Template)
    (dpi : Z) (pages : option (list nat)) (items : list (nat * Page))
    (tasks : list (M Path)) :
  emits (Forall P)
    (page_tasks env items pages output_dir output_filename dpi tasks).
Proof.
  revert tasks. induction items as [|[index page] items IH]; intros tasks; simpl.
  - apply emits_ret.
  - destruct (match pages with
              | Some pages0 => negb (contains pages0 index)
              | None => false
              end); [apply IH|].
    apply emits_bind; [apply emits_substitute_|]. intros name. apply IH.
Qed.

Lemma emits_convert_ppt_to_image (ppt_file_path output_dir : Path) (dpi : Z)
    (output_filename : Template) (soffice_file_path : Path)
    (encoding : string) (pages : option (list nat)) :
  (∀ d, P (EvMkdtemp d)) → (∀ d, P (EvCleanup d)) →
  (∀ d, P (EvRun (soffice_cmd soffice_file_path d ppt_file_path))) →
  (∀ p, P (EvOpenPdf p)) → (∀ page, P (EvPixmap page dpi)) →
  emits (Forall P)
    (convert_ppt_to_image env ppt_file_path output_dir dpi output_filename
       soffice_file_path encoding pages).
Proof.
  intros Hmk Hcl Hrun Hopen Hpix. unfold convert_ppt_to_image. apply emits_bind.
  - apply emits_with_TemporaryDirectory.
    + intros d. apply emits_bind; [apply emits_subprocess_run, Hrun|].
      intros output. destruct (0 <? String.length (stderr output));
        [apply emits_raise|].
      apply emits_bind; [by apply emits_emit|]. intros _.
      destruct (pymupdf_open env _) as [pdf|]; [|apply emits_raise].
      apply emits_TaskGroup; [apply emits_page_tasks|].
      intros w bodies. apply page_tasks_bodies; [|done].
      intros page out. by apply emits_convert_page_to_image.
    + intros d evs Hevs. constructor; [done|]. apply Forall_app.
      split; [done|]. by constructor.
  - intros tasks. apply emits_mapM. intros t. apply emits_task_result.
Qed.

Lemma emits_convert_videos (image_file_paths audio_file_paths : list Path)
    (output_dir : Path) (output_filename : Template) (ffmpeg_file_path : Path)
    (encoding : string) :
  (∀ image audio out, P (EvRun (mux_cmd ffmpeg_file_path image audio out))) →
  emits (Forall P)
    (convert_videos env image_file_paths audio_file_paths output_dir
       output_filename ffmpeg_file_path encoding).
Proof.
  intros HP. unfold convert_videos.
  generalize (zip_count 1 image_file_paths audio_file_paths) (@nil Path).
  intros items. induction items as [|[[index image] audio] items IH];
    intros result; simpl.
  - apply emits_ret.
  - apply emits_bind; [apply emits_substitute_|]. intros name.
    apply emits_bind; [|intros p; apply IH].
    unfold convert_video. apply emits_bind; [|intros _; apply emits_ret].
    apply emits_subprocess_run, HP.
Qed.

Lemma emits_concat_videos (video_file_paths : list Path)
    (output_file_path ffmpeg_file_path : Path) (encoding : string) :
  (∀ d, P (EvMkdtemp d)) → (∀ d, P (EvCleanup d)) →
  (∀ p lines, P (EvWrite p lines)) →
  (∀ a1 a2 rest, a2 ≠ AStr "-loop" → a2 ≠ AStr "--headless" →
     P (EvRun (a1 :: a2 :: rest))) →
  emits (Forall P)
    (concat_videos env video_file_paths output_file_path ffmpeg_file_path
       encoding).
Proof.
  intros Hmk Hcl Hwr Hrun. unfold concat_videos.
  apply emits_with_TemporaryDirectory.
  - intros d. apply emits_bind; [by apply emits_emit|]. intros _.
    apply emits_bind; [|intros _; apply emits_ret].
    apply emits_subprocess_run, Hrun; discriminate.
  - intros d evs Hevs. constructor; [done|]. apply Forall_app.
    split; [done|]. by constructor.
Qed.

End Stages.

Lemma then_nil (P : Event → Prop) (L : list Event → Prop) :
  L [] → then_ P L [].
Proof. intros HL. exists [], []. by split. Qed.

(** The trace of any run: what precedes the image branch, the image
    branch, what follows it. *)
Lemma main_process_phases (env : Env) (ppt_file_path output_file_path
    soffice_file_path ffmpeg_file_path : Path) (dpi : Z)
    (voice encoding : string) :
  emits (then_ before_rendering (then_ while_rendering (Forall after_rendering)))
    (main_process env ppt_file_path output_file_path soffice_file_path
       ffmpeg_file_path dpi voice encoding).
Proof.
  assert (Hnil : then_ while_rendering (Forall after_rendering) [])
    by (by apply then_nil).
  unfold main_process. apply emits_with_TemporaryDirectory.
  - intros d.
    apply emits_then_bind; [done| |intros notes].
    { by apply emits_get_notes_from_ppt_file. }
    apply emits_then_bind; [done| |intros _].
    { by apply emits_emit. }
    apply emits_then_bind; [done| |intros audio_file_paths].
    { by apply emits_convert_notes_to_audio. }
    apply emits_then_skip.
    apply emits_then_bind; [done| |intros _].
    { by apply emits_emit. }
    apply emits_then_bind; [done| |intros image_file_paths].
    { by apply emits_convert_ppt_to_image. }
    apply emits_then_skip.
    apply emits_bind; [by apply emits_emit|]. intros _.
    apply emits_bind; [by apply emits_convert_videos|]. intros video_file_paths.
    apply emits_concat_videos; try done.
    intros a1 a2 rest Hloop Hheadless. split; [done|]. simpl.
    destruct a2 as [s|p]; [|done].
    destruct (decide (s = "--headless")) as [->|Hne]; [done|].
    clear -Hne. repeat (destruct s as [|[[] [] [] [] [] [] [] []] s]; try done).
  - intros d evs (e1 & e2 & -> & He1 & (f1 & f2 & -> & Hf1 & Hf2)).
    exists (EvMkdtemp d :: e1), (f1 ++ f2 ++ [EvCleanup d]).
    split; [by rewrite <- !app_assoc|]. split; [by constructor|].
    exists f1, (f2 ++ [EvCleanup d]). split; [done|]. split; [done|].
    apply Forall_app. split; [done|]. by constructor.
Qed.

Lemma split_all_before (p q : Event → bool) (l1 l2 : list Event) :
  Forall (λ ev, q ev = false) l1 → Forall (λ ev, p ev = false) l2 →
  all_before p q (l1 ++ l2).
Proof.
  intros Hq Hp i j e1 e2 Hi Hj Hp1 Hq2.
  apply lookup_app_Some in Hi as [Hi|[Hle Hi]].
  - apply lookup_app_Some in Hj as [Hj|[Hle Hj]].
    + pose proof (proj1 (Forall_lookup _ _) Hq j e2 Hj) as Hf. simpl in Hf. congruence.
    + apply lookup_lt_Some in Hi. lia.
  - pose proof (proj1 (Forall_lookup _ _) Hp _ e1 Hi) as Hf. simpl in Hf. congruence.
Qed.

Lemma phases_all_before (evs : list Event) :
  then_ before_rendering (then_ while_rendering (Forall after_rendering)) evs →
  all_before is_synthesis is_rendering evs
  ∧ all_before is_synthesis is_muxing evs
  ∧ all_before is_rendering is_muxing evs.
Proof.
  intros (a & r & -> & Ha & (i & v & -> & Hi & Hv)).
  assert (Hs : Forall (λ ev, is_synthesis ev = false) (i ++ v)).
  { apply Forall_app. split; eapply Forall_impl; eauto; by intros ev []. }
  split; [|split].
  - apply split_all_before; [|done]. eapply Forall_impl; eauto. by intros ev [].
  - apply split_all_before; [|done]. eapply Forall_impl; eauto. by intros ev [].
  - rewrite app_assoc. apply split_all_before.
    + apply Forall_app. split; eapply Forall_impl; eauto; by intros ev [].
    + eapply Forall_impl; eauto. by intros ev [].
Qed.

(** C9, as the code has it.  In every run, whatever the collaborators
    answer and whatever the event loop chooses, every synthesis of the
    audio branch happens before the first effect of the image branch (the
    converter's launch, the opening of the converted document, the
    rasterizations): the image branch starts only when the audio branch is
    over.  Every synthesis and every one of these effects of the image
    branch happens before the first clip is muxed.  The saves of the
    images, which the image branch hands to the executor without awaiting
    them, are none of these effects: the statement does not order them. *)
Theorem main_process_branches_in_sequence (env : Env) (ppt_file_path
    output_file_path soffice_file_path ffmpeg_file_path : Path) (dpi : Z)
    (voice encoding : string) (w : World) :
  ∃ evs,
    trace (main_process env ppt_file_path output_file_path soffice_file_path
             ffmpeg_file_path dpi voice encoding w).2 = trace w ++ evs
    ∧ all_before is_synthesis is_rendering evs
    ∧ all_before is_synthesis is_muxing evs
    ∧ all_before is_rendering is_muxing evs.
Proof.
  destruct (main_process_phases env ppt_file_path output_file_path
              soffice_file_path ffmpeg_file_path dpi voice encoding w)
    as (evs & Htrace & Hphases).
  exists evs. split; [done|]. by apply phases_all_before.
Qed.

(** On the deck with notes on slides 2 and 5 no choice of the event loop
    makes the branches overlap; with the default choices the two syntheses
    are followed by the converter's launch and the rasterizations. *)
Lemma main_process_branches_never_overlap :
  (¬ ∃ choices,
       branches_overlap
         (trace (main_process (env_ok deck5 5) ["deck.pptx"] ["out.mp4"]
                   ["soffice"] ["ffmpeg"] 75 "v" "utf-8" (w0 choices)).2))
  ∧ List.filter (λ ev, is_synthesis ev || is_rendering ev)
      (trace (main_process (env_ok deck5 5) ["deck.pptx"] ["out.mp4"]
                ["soffice"] ["ffmpeg"] 75 "v" "utf-8" (w0 [])).2)
    = [EvSynth "two" [""; "tmp"; "tmp0"; "audios"; "note-1.aac"] "v";
       EvSynth "five" [""; "tmp"; "tmp0"; "audios"; "note-2.aac"] "v";
       EvRun (soffice_cmd ["soffice"] [""; "tmp"; "tmp1"] ["deck.pptx"]);
       EvOpenPdf [""; "tmp"; "tmp1"; "deck.pdf"];
       EvPixmap {| number := 1 |} 75;
       EvPixmap {| number := 4 |} 75].
Proof.
  split; [|by vm_compute].
  intros (choices & i & j & e1 & e2 & Hlt & Hi & Hj & Hr & Hs).
  destruct (main_process_phases (env_ok deck5 5) ["deck.pptx"] ["out.mp4"]
              ["soffice"] ["ffmpeg"] 75 "v" "utf-8" (w0 choices))
    as (evs & Htrace & Hphases).
  apply phases_all_before in Hphases as (Hsr & _ & _).
  rewrite Htrace in Hi, Hj. simpl in Hi, Hj.
  pose proof (Hsr j i e2 e1 Hj Hi Hs Hr). lia.
Qed.

(** ** C5: a deck without notes *)

Lemma subprocess_run_checked (env : Env) (cmd : list Arg) (encoding : string)
    (w : World) :
  subprocess_run env cmd encoding w
  = (checked cmd (subprocess env cmd encoding), advance w [EvRun cmd] [] 0).
Proof.
  unfold subprocess_run, checked.
  rewrite (bind_inr _ _ _ _ _ (emit_run _ _)).
  destruct (subprocess env cmd encoding) as [[rc out] err].
  by destruct (rc =? 0)%Z.
Qed.

Lemma get_notes_from_ppt_file_run (env : Env) (ppt_file_path : Path)
    (slides : list Slide) (w : World) :
  Presentation env ppt_file_path = Some slides →
  get_notes_from_ppt_file env ppt_file_path w
  = (inr (get_note_from_slide <$> slides),
     advance w [EvLoadDeck ppt_file_path] [] 0).
Proof.
  intros Hload. unfold get_notes_from_ppt_file.
  rewrite (bind_inr _ _ _ _ _ (emit_run _ _)). by rewrite Hload.
Qed.

Lemma no_note_nothing_available (slides : list Slide) :
  Forall no_note slides →
  available_pages_and_notes (get_note_from_slide <$> slides) = [].
Proof.
  intros Hno. unfold available_pages_and_notes.
  generalize 1. induction Hno as [|slide slides Hslide _ IH]; intros start;
    [done|].
  apply get_note_from_slide_None in Hslide.
  rewrite fmap_cons, Hslide. simpl. apply IH.
Qed.

Lemma convert_notes_to_audio_nil (env : Env) (output_dir : Path)
    (output_filename : Template) (voice : string) (w : World) :
  convert_notes_to_audio env [] output_dir output_filename voice w = (inr [], w).
Proof. reflexivity. Qed.

Lemma rendered_nil (pdf : list Page) : rendered (Some []) pdf = [].
Proof.
  unfold rendered. generalize 1.
  induction pdf as [|page pdf IH]; intros start; [done|]. simpl. apply IH.
Qed.

(** The image stage always gets as far as launching the converter. *)
Lemma convert_ppt_to_image_launches (env : Env) (ppt_file_path output_dir : Path)
    (dpi : Z) (output_filename : Template) (soffice_file_path : Path)
    (encoding : string) (pages : option (list nat)) (w : World) :
  let d := mkdtemp env (tmp_count w) in
  ∃ rest,
    trace (convert_ppt_to_image env ppt_file_path output_dir dpi
             output_filename soffice_file_path encoding pages w).2
    = trace w ++ [EvMkdtemp d; EvRun (soffice_cmd soffice_file_path d ppt_file_path)]
              ++ rest.
Proof.
  intros d. unfold convert_ppt_to_image, bind at 1, with_TemporaryDirectory.
  fold d. set (w1 := mkWorld _ _ _ _).
  unfold bind at 1. fold (soffice_cmd soffice_file_path d ppt_file_path).
  rewrite subprocess_run_checked.
  set (cmd := soffice_cmd soffice_file_path d ppt_file_path).
  destruct (checked cmd (subprocess env cmd encoding)) as [e|output].
  { exists [EvCleanup d]. simpl. by rewrite <- !app_assoc. }
  match goal with
  | |- context [?k (advance w1 [EvRun cmd] [] 0)] =>
      assert (Hk : emits (Forall (λ _, True)) k)
  end.
  { destruct (0 <? String.length (stderr output)); [apply emits_raise|].
    apply emits_bind; [by apply emits_emit|]. intros _.
    destruct (pymupdf_open env _) as [pdf|]; [|apply emits_raise].
    apply emits_TaskGroup; [apply emits_page_tasks|].
    intros w' bodies. apply page_tasks_bodies; [|done].
    intros page out. by apply emits_convert_page_to_image. }
  destruct (Hk (advance w1 [EvRun cmd] [] 0)) as (evs & Ht & _).
  match type of Ht with
  | trace (?m).2 = _ => destruct m as [[e|tasks] w2]
  end; simpl in Ht.
  - exists (evs ++ [EvCleanup d]). simpl. rewrite Ht. by rewrite <- !app_assoc.
  - destruct (emits_mapM (λ _, True) (task_result tasks.2) tasks.1
                (emits_task_result _ _)
                (mkWorld (trace w2 ++ [EvCleanup d]) (executor w2)
                         (tmp_count w2) (sched w2)))
      as (evs' & Ht' & _).
    exists (evs ++ [EvCleanup d] ++ evs'). rewrite Ht'. simpl. rewrite Ht.
    by rewrite <- !app_assoc.
Qed.

(** The concatenation ends as its one encoder command ends. *)
Lemma concat_videos_run (env : Env) (video_file_paths : list Path)
    (output_file_path ffmpeg_file_path : Path) (encoding : string) (w : World) :
  let d := mkdtemp env (tmp_count w) in
  let cmd := concat_cmd ffmpeg_file_path (d // "concat.txt") output_file_path in
  concat_videos env video_file_paths output_file_path ffmpeg_file_path
    encoding w
  = (match checked cmd (subprocess env cmd encoding) with
     | inr _ => inr output_file_path
     | inl e => inl e
     end,
     mkWorld (trace w ++ [EvMkdtemp d;
                          EvWrite (d // "concat.txt")
                            (manifest_line env <$> video_file_paths);
                          EvRun cmd; EvCleanup d])
             (executor w) (S (tmp_count w)) (sched w)).
Proof.
  intros d cmd. unfold concat_videos, with_TemporaryDirectory. fold d.
  erewrite bind_inr by apply emit_run.
  unfold bind. rewrite subprocess_run_checked.
  fold (concat_cmd ffmpeg_file_path (d // "concat.txt") output_file_path).
  fold cmd.
  destruct (checked cmd (subprocess env cmd encoding)) as [e|output]; simpl;
    by rewrite !app_nil_r, <- !app_assoc.
Qed.

(** The run up to the image stage when no slide has a note: nothing is
    synthesized, the image stage is entered with no page to keep. *)
Lemma main_process_no_notes_unfold (env : Env) (ppt_file_path
    output_file_path soffice_file_path ffmpeg_file_path : Path) (dpi : Z)
    (voice encoding : string) (slides : list Slide) (w : World) :
  Presentation env ppt_file_path = Some slides →
  Forall no_note slides →
  let d0 := mkdtemp env (tmp_count w) in
  let w3 := mkWorld (trace w ++ [EvMkdtemp d0; EvLoadDeck ppt_file_path;
                                 EvMkdir (d0 // "audios");
                                 EvMkdir (d0 // "images")])
                    (executor w) (S (tmp_count w)) (sched w) in
  main_process env ppt_file_path output_file_path soffice_file_path
    ffmpeg_file_path dpi voice encoding w
  = let '(r, w') :=
      bind (convert_ppt_to_image env ppt_file_path (d0 // "images") dpi
              page_template soffice_file_path encoding (Some []))
        (λ image_file_paths,
           emit (EvMkdir (d0 // "videos"));;
           let! video_file_paths :=
             convert_videos env image_file_paths [] (d0 // "videos")
               video_template ffmpeg_file_path encoding in
           concat_videos env video_file_paths output_file_path
             ffmpeg_file_path encoding) w3 in
    (r, mkWorld (trace w' ++ [EvCleanup d0]) (executor w') (tmp_count w')
                (sched w')).
Proof.
  intros Hload Hno d0 w3. unfold main_process, with_TemporaryDirectory.
  fold d0.
  erewrite bind_inr by (by apply get_notes_from_ppt_file_run).
  erewrite bind_inr by apply emit_run.
  unfold available_notes, available_pages.
  rewrite (no_note_nothing_available slides Hno). simpl map.
  erewrite bind_inr by apply convert_notes_to_audio_nil.
  erewrite bind_inr by apply emit_run.
  rewrite !advance_advance.
  replace (advance _ _ _ _) with w3; [done|].
  unfold advance, w3. simpl. by rewrite app_nil_r, <- app_assoc.
Qed.

(** C5, as the code has it.  When no slide of the deck has a note the run
    does not stop early: with nothing synthesized it makes the audio and
    image directories and launches the document converter.  If the
    converter succeeds and the converted document opens, no page is
    rendered, no clip is muxed, the encoder is run once in concat mode on
    an empty manifest, and the run ends as that one command ends: with the
    output path when it exits with zero, with its [CalledProcessError]
    otherwise. *)
Theorem main_process_without_notes (env : Env) (ppt_file_path
    output_file_path soffice_file_path ffmpeg_file_path : Path) (dpi : Z)
    (voice encoding : string) (slides : list Slide) (w : World) :
  Presentation env ppt_file_path = Some slides →
  Forall no_note slides →
  let d0 := mkdtemp env (tmp_count w) in
  let d1 := mkdtemp env (S (tmp_count w)) in
  let d2 := mkdtemp env (S (S (tmp_count w))) in
  let convert := soffice_cmd soffice_file_path d1 ppt_file_path in
  let pdf_file_path := d1 // (stem ppt_file_path +:+ ".pdf") in
  let concat := concat_cmd ffmpeg_file_path (d2 // "concat.txt")
                  output_file_path in
  let start := [EvMkdtemp d0; EvLoadDeck ppt_file_path;
                EvMkdir (d0 // "audios"); EvMkdir (d0 // "images");
                EvMkdtemp d1; EvRun convert] in
  let run := main_process env ppt_file_path output_file_path
               soffice_file_path ffmpeg_file_path dpi voice encoding w in
  (∃ rest, trace run.2 = trace w ++ start ++ rest)
  ∧ (∀ out pdf,
       subprocess env convert encoding = (0%Z, out, "") →
       pymupdf_open env pdf_file_path = Some pdf →
       trace run.2
       = trace w ++ start
           ++ [EvOpenPdf pdf_file_path; EvCleanup d1;
               EvMkdir (d0 // "videos"); EvMkdtemp d2;
               EvWrite (d2 // "concat.txt") []; EvRun concat;
               EvCleanup d2; EvCleanup d0]
       ∧ run.1 = match checked concat (subprocess env concat encoding) with
                 | inr _ => inr output_file_path
                 | inl e => inl e
                 end).
Proof.
  intros Hload Hno d0 d1 d2 convert pdf_file_path concat start run.
  pose proof (main_process_no_notes_unfold env ppt_file_path
                output_file_path soffice_file_path ffmpeg_file_path dpi voice
                encoding slides w Hload Hno) as Hrun.
  fold run d0 in Hrun. cbv zeta in Hrun.
  set (w3 := mkWorld _ _ _ _) in Hrun.
  split.
  - destruct (convert_ppt_to_image_launches env ppt_file_path (d0 // "images")
                dpi page_template soffice_file_path encoding (Some []) w3)
      as (rest & Himg).
    change (mkdtemp env (tmp_count w3)) with d1 in Himg. fold convert in Himg.
    rewrite Hrun. unfold bind at 1.
    destruct (convert_ppt_to_image _ _ _ _ _ _ _ _ w3) as [[e|images] w4];
      simpl in Himg.
    + exists (rest ++ [EvCleanup d0]). simpl. rewrite Himg. unfold w3, start.
      simpl. by rewrite <- !app_assoc.
    + match goal with
      | |- context [bind ?m ?k w4] =>
          assert (Hk : emits (Forall (λ _, True)) (bind m k))
      end.
      { apply emits_bind; [by apply emits_emit|]. intros _.
        apply emits_bind; [by apply emits_convert_videos|]. intros videos.
        by apply emits_concat_videos. }
      destruct (Hk w4) as (evs & Ht & _).
      match type of Ht with
      | trace (?m).2 = _ => destruct m as [r w5]
      end. simpl in Ht.
      exists (rest ++ evs ++ [EvCleanup d0]). simpl. rewrite Ht, Himg.
      unfold w3, start. simpl. by rewrite <- !app_assoc.
  - intros out pdf Hsub Hopen.
    destruct (convert_ppt_to_image_run env ppt_file_path (d0 // "images") dpi
                soffice_file_path encoding (Some []) w3 out pdf Hsub Hopen)
      as (evs & jobs & Hevs & Hjobs & Himg).
    { rewrite rendered_nil. intros index page Hin. by apply elem_of_nil in Hin. }
    rewrite rendered_nil in Hevs, Hjobs, Himg. simpl in Hevs, Hjobs, Himg.
    apply Permutation_nil_r in Hevs as ->. apply Permutation_nil_r in Hjobs as ->.
    change (mkdtemp env (tmp_count w3)) with d1 in Himg.
    fold convert pdf_file_path in Himg.
    rewrite Hrun. erewrite bind_inr by exact Himg.
    erewrite bind_inr by apply emit_run.
    erewrite bind_inr by reflexivity.
    rewrite concat_videos_run.
    cbn [trace executor tmp_count sched advance fst snd]. fold d2. fold concat.
    split; [|done]. unfold w3, start. simpl.
    by rewrite <- !app_assoc.
Qed.

Lemma main_process_without_notes_witness :
  ∃ rest,
    trace (main_process (env_ok [slide_bare] 1) ["deck.pptx"] ["out.mp4"]
             ["soffice"] ["ffmpeg"] 75 "v" "utf-8" (w0 [])).2
    = [EvMkdtemp [""; "tmp"; "tmp0"]; EvLoadDeck ["deck.pptx"];
       EvMkdir [""; "tmp"; "tmp0"; "audios"];
       EvMkdir [""; "tmp"; "tmp0"; "images"];
       EvMkdtemp [""; "tmp"; "tmp1"];
       EvRun (soffice_cmd ["soffice"] [""; "tmp"; "tmp1"] ["deck.pptx"])]
      ++ rest.
Proof.
  refine (proj1 (main_process_without_notes (env_ok [slide_bare] 1)
                   ["deck.pptx"] ["out.mp4"] ["soffice"] ["ffmpeg"] 75 "v"
                   "utf-8" [slide_bare] (w0 []) eq_refl _)).
  constructor; [|constructor]. by left.
Defined.

(** One slide, no note.  With every tool content, the run reports success
    after converting the deck and concatenating nothing.  With an encoder
    that rejects the empty manifest, the run fails, but only at the very
    end and with the encoder's error, after the converter has run. *)
Lemma main_process_no_notes_runs_every_stage :
  main_process (env_ok [slide_bare] 1) ["deck.pptx"] ["out.mp4"] ["soffice"]
    ["ffmpeg"] 75 "v" "utf-8" (w0 [])
  = (inr ["out.mp4"],
     mkWorld
       [EvMkdtemp [""; "tmp"; "tmp0"]; EvLoadDeck ["deck.pptx"];
        EvMkdir [""; "tmp"; "tmp0"; "audios"];
        EvMkdir [""; "tmp"; "tmp0"; "images"];
        EvMkdtemp [""; "tmp"; "tmp1"];
        EvRun (soffice_cmd ["soffice"] [""; "tmp"; "tmp1"] ["deck.pptx"]);
        EvOpenPdf [""; "tmp"; "tmp1"; "deck.pdf"];
        EvCleanup [""; "tmp"; "tmp1"];
        EvMkdir [""; "tmp"; "tmp0"; "videos"];
        EvMkdtemp [""; "tmp"; "tmp2"];
        EvWrite [""; "tmp"; "tmp2"; "concat.txt"] [];
        EvRun (concat_cmd ["ffmpeg"] [""; "tmp"; "tmp2"; "concat.txt"]
                 ["out.mp4"]);
        EvCleanup [""; "tmp"; "tmp2"]; EvCleanup [""; "tmp"; "tmp0"]]
       [] 3 [])
  ∧ main_process env_strict ["deck.pptx"] ["out.mp4"] ["soffice"]
      ["ffmpeg"] 75 "v" "utf-8" (w0 [])
    = (inl (CalledProcessError 1
              (concat_cmd ["ffmpeg"] [""; "tmp"; "tmp2"; "concat.txt"]
                 ["out.mp4"])
              "" "Invalid data found when processing input"),
       mkWorld
         [EvMkdtemp [""; "tmp"; "tmp0"]; EvLoadDeck ["deck.pptx"];
          EvMkdir [""; "tmp"; "tmp0"; "audios"];
          EvMkdir [""; "tmp"; "tmp0"; "images"];
          EvMkdtemp [""; "tmp"; "tmp1"];
          EvRun (soffice_cmd ["soffice"] [""; "tmp"; "tmp1"] ["deck.pptx"]);
          EvOpenPdf [""; "tmp"; "tmp1"; "deck.pdf"];
          EvCleanup [""; "tmp"; "tmp1"];
          EvMkdir [""; "tmp"; "tmp0"; "videos"];
          EvMkdtemp [""; "tmp"; "tmp2"];
          EvWrite [""; "tmp"; "tmp2"; "concat.txt"] [];
          EvRun (concat_cmd ["ffmpeg"] [""; "tmp"; "tmp2"; "concat.txt"]
                   ["out.mp4"]);
          EvCleanup [""; "tmp"; "tmp2"]; EvCleanup [""; "tmp"; "tmp0"]]
         [] 3 []).
Proof. split; vm_compute; reflexivity. Qed.

(** * Further properties of the pipeline *)

(** ** The selection, seen from the deck *)

Lemma elem_of_available_pages_and_notes (notes : list (option string))
    (p : nat) (s : string) :
  (p, s) ∈ available_pages_and_notes notes
  ↔ 1 ≤ p ∧ notes !! (p - 1) = Some (Some s) ∧ s ≠ "".
Proof.
  unfold available_pages_and_notes. rewrite list_elem_of_omap. split.
  - intros ([p' [note|]] & Hin & Hnarrow); simplify_eq/=.
    apply list_elem_of_In, filter_In in Hin as [Hin Hhas].
    apply list_elem_of_In, elem_of_enumerate in Hin as [Hle Hl].
    simpl in Hhas. apply string_length_pos in Hhas. done.
  - intros (Hle & Hl & Hs). exists (p, Some s). split; [|done].
    apply list_elem_of_In, filter_In. split.
    + apply list_elem_of_In, elem_of_enumerate. done.
    + simpl. by apply string_length_pos.
Qed.

Lemma get_note_from_slide_is_text (slide : Slide) (s : string) :
  get_note_from_slide slide = Some s
  ↔ has_notes_slide slide = true
    ∧ ∃ frame, notes_text_frame (notes_slide slide) = Some frame
               ∧ text frame = s ∧ s ≠ "".
Proof.
  unfold get_note_from_slide.
  destruct (has_notes_slide slide); simpl; [|by split; [|intros []]].
  destruct (notes_text_frame (notes_slide slide)) as [frame|];
    [|by split; [|intros (_ & frame & ? & _)]].
  simpl. destruct (text frame) as [|c t] eqn:Htext; simpl.
  - split; [done|]. intros (_ & frame' & [= <-] & Ht & Hs).
    rewrite Htext in Ht. by subst.
  - split.
    + intros [= <-]. split; [done|]. exists frame. by rewrite Htext.
    + intros (_ & frame' & [= <-] & Ht & _). rewrite Htext in Ht. by subst.
Qed.

(** X1.  Extraction followed by selection keeps position [p] with note [s]
    exactly when slide [p] has a notes slide whose text frame exists and
    reads [s], with [s] not empty. *)
Theorem kept_slides_of_deck (slides : list Slide) (p : nat) (s : string) :
  (p, s) ∈ available_pages_and_notes (get_note_from_slide <$> slides)
  ↔ ∃ slide frame,
      1 ≤ p ∧ slides !! (p - 1) = Some slide
      ∧ has_notes_slide slide = true
      ∧ notes_text_frame (notes_slide slide) = Some frame
      ∧ text frame = s ∧ s ≠ "".
Proof.
  rewrite elem_of_available_pages_and_notes, list_lookup_fmap. split.
  - intros (Hle & Hl & Hs).
    destruct (slides !! (p - 1)) as [slide|] eqn:Hslide; [|done].
    simpl in Hl. injection Hl as Hnote.
    apply get_note_from_slide_is_text in Hnote as (Hhas & frame & Hframe & Ht & _).
    exists slide, frame. done.
  - intros (slide & frame & Hle & Hl & Hhas & Hframe & Ht & Hs).
    split; [done|]. split; [|done]. rewrite Hl. simpl. f_equal.
    apply get_note_from_slide_is_text. split; [done|]. by exists frame.
Qed.

(** ** File names *)

Lemma string_length_app (s1 s2 : string) :
  String.length (s1 +:+ s2) = String.length s1 + String.length s2.
Proof. induction s1 as [|c s1 IH]; simpl; [done|]. by rewrite IH. Qed.

Lemma string_app_inv_tail (s1 s2 t : string) :
  s1 +:+ t = s2 +:+ t → s1 = s2.
Proof.
  revert s2. induction s1 as [|c s1 IH]; intros [|c' s2] H.
  - done.
  - apply (f_equal String.length) in H.
    rewrite !string_length_app in H. simpl in H. lia.
  - apply (f_equal String.length) in H.
    rewrite !string_length_app in H. simpl in H. lia.
  - injection H as -> H. f_equal. by apply IH.
Qed.

Lemma substitute_one_index (prefix suffix : string) (i j : nat) (s : string) :
  substitute [Lit prefix; Var "index"; Lit suffix] i = inr s →
  substitute [Lit prefix; Var "index"; Lit suffix] j = inr s →
  i = j.
Proof.
  simpl. intros [= <-] [= H].
  apply String.app_inj in H. apply string_app_inv_tail in H.
  symmetry. by apply (inj pretty).
Qed.

(** X2.  The three file name templates of [main_process] never give the
    same name to two positions: no two notes, pages or clips share a
    file. *)
Theorem templates_name_positions_apart (output_filename : Template)
    (i j : nat) (s : string) :
  output_filename ∈ [note_template; page_template; video_template] →
  substitute output_filename i = inr s →
  substitute output_filename j = inr s →
  i = j.
Proof.
  intros Hin. apply list_elem_of_In in Hin.
  destruct Hin as [<-|[<-|[<-|[]]]]; apply substitute_one_index.
Qed.

Lemma templates_name_positions_apart_witness :
  substitute page_template 3 = inr "page-3.png" ∧ 3 = 3.
Proof.
  split; [reflexivity|].
  apply (templates_name_positions_apart page_template 3 3 "page-3.png").
  - apply list_elem_of_In. simpl. tauto.
  - reflexivity.
  - reflexivity.
Defined.

(** ** A run in which every collaborator succeeds *)

Lemma convert_notes_to_audio_run (env : Env) (notes : list string)
    (output_dir : Path) (voice : string) (w : World) :
  (∀ i note, notes !! i = Some note →
     communicate_save env note voice (output_dir // audio_name (S i)) = true) →
  ∃ evs,
    evs ≡ₚ imap (λ i note,
                   EvSynth note (output_dir // audio_name (S i)) voice) notes
    ∧ convert_notes_to_audio env notes output_dir note_template voice w
      = (inr (imap (λ i _, output_dir // audio_name (S i)) notes),
         advance w evs [] (length notes)).
Proof.
  intros Hok.
  set (val := λ i : nat, output_dir // audio_name (S i)).
  set (evs := λ i : nat, match notes !! i with
                         | Some note => [EvSynth note (val i) voice]
                         | None => []
                         end).
  set (bodies := (λ t : nat * string,
                    convert_note_to_audio env t.2 (output_dir // audio_name t.1) voice)
                 <$> enumerate 1 notes).
  assert (Hlen : length bodies = length notes)
    by (unfold bodies; by rewrite length_fmap, length_enumerate).
  destruct (TaskGroup_complete val evs (λ _, [])
              (note_tasks env (enumerate 1 notes) output_dir note_template voice [])
              bodies w) as (order & done & Hperm & Hdone & Hrun).
  - rewrite (note_tasks_spawn env note_template audio_name); [done|].
    apply substitute_note_template.
  - intros i body. unfold bodies. rewrite list_lookup_fmap, enumerate_lookup.
    destruct (notes !! i) as [note|] eqn:Hnote; simpl; [|done].
    intros [= <-]. unfold evs. rewrite Hnote.
    apply convert_note_to_audio_completes. by apply Hok.
  - rewrite Hlen in *. exists (order ≫= evs). split.
    + rewrite Hperm. rewrite (bind_seq_imap
        (λ i note, EvSynth note (val i) voice) notes evs); [done|].
      intros i x Hi. unfold evs. by rewrite Hi.
    + unfold convert_notes_to_audio. erewrite bind_inr by exact Hrun.
      rewrite bind_no_jobs. simpl.
      rewrite (mapM_task_result val).
      * f_equal. f_equal. symmetry. apply (imap_seq_0 notes val).
      * intros t Ht. apply Hdone. apply elem_of_seq in Ht. lia.
Qed.

Lemma kept_positions_from (start : nat) (notes : list (option string)) (p : nat) :
  p ∈ (omap narrow (List.filter has_note (enumerate start notes))).*1 →
  start ≤ p.
Proof.
  intros Hin. apply list_elem_of_fmap in Hin as ([p' s] & -> & Hin).
  apply list_elem_of_omap in Hin as ([p'' [note|]] & Hin & Hn); simplify_eq/=.
  apply list_elem_of_In, filter_In in Hin as [Hin _].
  by apply list_elem_of_In, elem_of_enumerate in Hin as [Hle _].
Qed.

Lemma contains_false (pages : list nat) (index : nat) :
  index ∉ pages → contains pages index = false.
Proof.
  intros Hnot. unfold contains. destruct (existsb _ _) eqn:He; [|done].
  apply existsb_exists in He as (x & Hin & Heq). apply Nat.eqb_eq in Heq as ->.
  by apply list_elem_of_In in Hin.
Qed.

Lemma filter_contains_front (front rest l : list nat) :
  (∀ p, p ∈ l → p ∉ front) →
  List.filter (contains (front ++ rest)) l = List.filter (contains rest) l.
Proof.
  intros Hfront. apply filter_ext_in. intros p Hp.
  unfold contains. rewrite existsb_app.
  replace (existsb (Nat.eqb p) front) with false; [done|].
  symmetry. apply contains_false. by apply Hfront, list_elem_of_In.
Qed.

Lemma filter_contains_kept (notes : list (option string)) :
  ∀ start n, length notes ≤ n →
    List.filter
      (contains (omap narrow (List.filter has_note (enumerate start notes))).*1)
      (seq start n)
    = (omap narrow (List.filter has_note (enumerate start notes))).*1.
Proof.
  induction notes as [|note notes IH]; intros start n Hn.
  - simpl. induction (seq start n) as [|x l IHl]; [done|]. apply IHl.
  - destruct n as [|n]; [simpl in Hn; lia|]. simpl in Hn.
    set (rest := (omap narrow (List.filter has_note
                                 (enumerate (S start) notes))).*1).
    assert (Hrest : List.filter (contains rest) (seq (S start) n) = rest)
      by (apply IH; lia).
    assert (Hnot : contains rest start = false).
    { apply contains_false. intros Hin. apply kept_positions_from in Hin. lia. }
    cbn [enumerate List.filter seq]. destruct (has_note (start, note)) eqn:Hhas.
    + destruct note as [s|]; [|done].
      change ((omap narrow ((start, Some s)
                 :: List.filter has_note (enumerate (S start) notes))).*1)
        with ([start] ++ rest).
      cbn [List.filter]. unfold contains at 1. cbn [existsb app].
      rewrite Nat.eqb_refl. cbn [orb]. f_equal.
      change (start :: rest) with ([start] ++ rest).
      rewrite filter_contains_front; [done|].
      intros p Hp Hin. apply list_elem_of_singleton in Hin as ->.
      apply elem_of_seq in Hp. lia.
    + fold rest. cbn [List.filter]. by rewrite Hnot.
Qed.

(** With at least as many pages as slides, the image stage renders exactly
    the kept positions, in order. *)
Lemma rendered_available_pages (notes : list (option string)) (pdf : list Page) :
  length notes ≤ length pdf →
  (rendered (Some (available_pages notes)) pdf).*1 = available_pages notes.
Proof.
  intros Hlen. unfold rendered.
  rewrite (filter_enumerate_fst (selected (Some (available_pages notes))) 1 pdf).
  by apply filter_contains_kept.
Qed.

Lemma rendered_pages_lookup (pages : option (list nat)) (pdf : list Page)
    (dpi : Z) :
  (λ t : nat * Page, EvPixmap t.2 dpi) <$> rendered pages pdf
  = omap (λ p, (λ page, EvPixmap page dpi) <$> pdf !! (p - 1))
         (rendered pages pdf).*1.
Proof.
  unfold rendered.
  assert (Hall : Forall (λ t : nat * Page, pdf !! (t.1 - 1) = Some t.2)
                   (List.filter (λ t, selected pages t.1) (enumerate 1 pdf))).
  { apply Forall_forall. intros [p page] Hin.
    apply list_elem_of_In, filter_In in Hin as [Hin _].
    by apply list_elem_of_In, elem_of_enumerate in Hin as [_ Hl]. }
  induction Hall as [|[p page] l Hp _ IH]; [done|].
  rewrite !fmap_cons. cbn [omap list_omap fst snd] in *. rewrite Hp.
  cbn [fmap option_fmap option_map]. f_equal. exact IH.
Qed.

Lemma zip_images_audios {A} (image : nat → Path) (audio : nat → Path)
    (kept : list (nat * Page)) (anotes : list A) :
  length anotes = length kept →
  zip ((λ t, image t.1) <$> kept) (imap (λ i _, audio i) anotes)
  = imap (λ i p, (image p, audio i)) kept.*1.
Proof.
  intros Hlen. apply list_eq. intros i.
  rewrite list_lookup_imap, list_lookup_fmap.
  destruct (kept !! i) as [t|] eqn:Hk; simpl.
  - destruct (lookup_lt_is_Some_2 anotes i) as [a Ha];
      [rewrite Hlen; by eapply lookup_lt_Some|].
    apply lookup_zip_Some. split.
    + by rewrite list_lookup_fmap, Hk.
    + by rewrite list_lookup_imap, Ha.
  - apply lookup_zip_None. left. by rewrite list_lookup_fmap, Hk.
Qed.

(** X3.  The whole pipeline when every collaborator succeeds and the
    converted document has a page for every slide.  The run returns the
    output path.  Each kept note is synthesized once, to [note-i.aac] for
    its rank [i] among the kept slides; each kept slide's page is rendered
    once; the [i]-th clip is encoded from [page-p.png], [p] the original
    position of the [i]-th kept slide, and [note-i.aac], into
    [video-i.mp4]; the manifest lists the clips in that order; both
    temporary directories of the stages and the work area are removed. *)
Theorem main_process_pairs_kept_slides (env : Env) (ppt_file_path
    output_file_path soffice_file_path ffmpeg_file_path : Path) (dpi : Z)
    (voice encoding : string) (slides : list Slide) (pdf : list Page)
    (out : string) (w : World) :
  let notes := get_note_from_slide <$> slides in
  let d0 := mkdtemp env (tmp_count w) in
  let d1 := mkdtemp env (S (tmp_count w)) in
  let d2 := mkdtemp env (S (S (tmp_count w))) in
  let audio := λ i : nat, d0 // "audios" // audio_name (S i) in
  let image := λ p : nat, d0 // "images" // page_name p in
  let video := λ i : nat, d0 // "videos" // video_name (S i) in
  let convert := soffice_cmd soffice_file_path d1 ppt_file_path in
  let pdf_file_path := d1 // (stem ppt_file_path +:+ ".pdf") in
  let concat := concat_cmd ffmpeg_file_path (d2 // "concat.txt")
                  output_file_path in
  Presentation env ppt_file_path = Some slides →
  (∀ i note, available_notes notes !! i = Some note →
     communicate_save env note voice (audio i) = true) →
  subprocess env convert encoding = (0%Z, out, "") →
  pymupdf_open env pdf_file_path = Some pdf →
  length slides ≤ length pdf →
  (∀ page, page ∈ pdf → is_Some (get_pixmap env page dpi)) →
  (∀ i p, available_pages notes !! i = Some p →
     exits_zero env (mux_cmd ffmpeg_file_path (image p) (audio i) (video i))
       encoding) →
  exits_zero env concat encoding →
  let run := main_process env ppt_file_path output_file_path
               soffice_file_path ffmpeg_file_path dpi voice encoding w in
  run.1 = inr output_file_path
  ∧ ∃ synths pixmaps,
      synths ≡ₚ imap (λ i note, EvSynth note (audio i) voice)
                     (available_notes notes)
      ∧ pixmaps ≡ₚ omap (λ p, (λ page, EvPixmap page dpi) <$> pdf !! (p - 1))
                        (available_pages notes)
      ∧ trace run.2
        = trace w
          ++ [EvMkdtemp d0; EvLoadDeck ppt_file_path; EvMkdir (d0 // "audios")]
          ++ synths
          ++ [EvMkdir (d0 // "images"); EvMkdtemp d1; EvRun convert;
              EvOpenPdf pdf_file_path]
          ++ pixmaps
          ++ [EvCleanup d1; EvMkdir (d0 // "videos")]
          ++ imap (λ i p, EvRun (mux_cmd ffmpeg_file_path (image p) (audio i)
                                   (video i)))
                  (available_pages notes)
          ++ [EvMkdtemp d2;
              EvWrite (d2 // "concat.txt")
                (imap (λ i _, manifest_line env (video i))
                      (available_pages notes));
              EvRun concat; EvCleanup d2; EvCleanup d0].
Proof.
  intros notes d0 d1 d2 audio image video convert pdf_file_path concat
    Hload Hsynth Hconv Hopen Hpages Hpix Hmux Hconcat run.
  assert (Hlen : length (available_notes notes) = length (available_pages notes))
    by (unfold available_notes, available_pages; by rewrite !length_fmap).
  set (w1 := mkWorld (trace w ++ [EvMkdtemp d0]) (executor w) (S (tmp_count w))
                     (sched w)).
  set (w2 := advance w1 [EvLoadDeck ppt_file_path; EvMkdir (d0 // "audios")] [] 0).
  destruct (convert_notes_to_audio_run env (available_notes notes)
              (d0 // "audios") voice w2 Hsynth) as (synths & Hsynths & Haudio).
  set (w3 := advance (advance w2 synths [] (length (available_notes notes)))
                     [EvMkdir (d0 // "images")] [] 0).
  destruct (convert_ppt_to_image_run env ppt_file_path (d0 // "images") dpi
              soffice_file_path encoding (Some (available_pages notes)) w3 out
              pdf Hconv Hopen) as (pixmaps & jobs & Hpixmaps & _ & Himage).
  { intros index page Hin. apply Hpix.
    apply list_elem_of_In, filter_In in Hin as [Hin _].
    apply list_elem_of_In, elem_of_enumerate in Hin as [_ Hl].
    apply list_elem_of_lookup. eauto. }
  set (kept := rendered (Some (available_pages notes)) pdf) in *.
  assert (Hkept : kept.*1 = available_pages notes).
  { apply rendered_available_pages. unfold notes. by rewrite length_fmap. }
  assert (Hzip : zip ((λ t : nat * Page, (d0 // "images") // page_name t.1) <$> kept)
                     (imap (λ i _, (d0 // "audios") // audio_name (S i))
                           (available_notes notes))
                 = imap (λ i p, (image p, audio i)) (available_pages notes)).
  { rewrite <- Hkept. apply (zip_images_audios image audio).
    by rewrite Hlen, <- Hkept, length_fmap. }
  match type of Himage with
  | _ = (_, ?w') => set (w4 := advance w' [EvMkdir (d0 // "videos")] [] 0) in *
  end.
  pose proof (convert_videos_run env
                ((λ t : nat * Page, (d0 // "images") // page_name t.1) <$> kept)
                (imap (λ i _, (d0 // "audios") // audio_name (S i))
                      (available_notes notes))
                (d0 // "videos") ffmpeg_file_path encoding w4) as Hvideos.
  rewrite Hzip in Hvideos.
  assert (Hrun : run.1 = inr output_file_path ∧
            trace run.2 = trace (advance w4 (imap (λ i p, EvRun (mux_cmd ffmpeg_file_path p.1 p.2 (video i))) (imap (λ i p, (image p, audio i)) (available_pages notes))) [] 0)
              ++ [EvMkdtemp d2;
                  EvWrite (d2 // "concat.txt")
                    (manifest_line env <$>
                       imap (λ i _, video i)
                            (imap (λ i p, (image p, audio i)) (available_pages notes)));
                  EvRun concat; EvCleanup d2; EvCleanup d0]).
  { unfold run, main_process.
    erewrite with_TemporaryDirectory_run; cycle 1.
    { fold d0 w1.
      erewrite bind_inr by (by apply get_notes_from_ppt_file_run).
      erewrite bind_inr by apply emit_run.
      rewrite advance_advance. fold notes. simpl app. fold w2.
      erewrite bind_inr by exact Haudio.
      erewrite bind_inr by apply emit_run. fold w3.
      erewrite bind_inr by exact Himage.
      erewrite bind_inr by apply emit_run. fold w4.
      erewrite bind_inr; cycle 1.
      { apply Hvideos. intros i image' audio' Hi Ha.
        assert (Hz : zip ((λ t : nat * Page, (d0 // "images") // page_name t.1) <$> kept)
                       (imap (λ i _, (d0 // "audios") // audio_name (S i))
                          (available_notes notes)) !! i = Some (image', audio'))
          by by apply lookup_zip_Some.
        rewrite Hzip, list_lookup_imap in Hz.
        destruct (available_pages notes !! i) as [p|] eqn:Hp; simplify_eq/=.
        by apply Hmux. }
      rewrite concat_videos_run. reflexivity. }
    cbn [fst snd trace advance tmp_count].
    change (mkdtemp env (tmp_count w4)) with d2. fold concat.
    unfold exits_zero in Hconcat. unfold checked.
    destruct (subprocess env concat encoding) as [[rc o] e]. simpl in Hconcat.
    subst rc. simpl. split; [done|]. by rewrite <- !app_assoc. }
  destruct Hrun as [Hres Htrace]. split; [done|].
  exists synths, pixmaps. split; [done|]. split.
  - rewrite Hpixmaps. unfold kept. rewrite rendered_pages_lookup.
    fold kept. by rewrite Hkept.
  - rewrite Htrace. unfold w4, w3, w2, w1. cbn [trace advance].
    rewrite <- !app_assoc. simpl app.
    repeat f_equal.
    + apply list_eq. intros i. rewrite !list_lookup_imap.
      by destruct (available_pages notes !! i).
    + apply list_eq. intros i. rewrite list_lookup_fmap, !list_lookup_imap.
      by destruct (available_pages notes !! i).
Qed.

Lemma main_process_pairs_kept_slides_witness :
  (main_process (env_ok deck5 5) ["deck.pptx"] ["out.mp4"] ["soffice"]
     ["ffmpeg"] 75 "v" "utf-8" (w0 [1; 0])).1 = inr ["out.mp4"].
Proof.
  refine (proj1 (main_process_pairs_kept_slides (env_ok deck5 5) ["deck.pptx"]
                   ["out.mp4"] ["soffice"] ["ffmpeg"] 75 "v" "utf-8" deck5
                   (map (λ n, {| number := n |}) (seq 0 5)) "" (w0 [1; 0])
                   eq_refl _ eq_refl eq_refl _ _ _ eq_refl)).
  - intros i note _. reflexivity.
  - simpl. lia.
  - intros page _. simpl. eauto.
  - intros i p _. reflexivity.
Defined.

(** ** Failures *)

(** X4.  A deck that does not load ends the run at once with the loader's
    error: nothing is synthesized, converted or encoded, and the work area
    made for the run is removed. *)
Theorem main_process_load_failure (env : Env) (ppt_file_path output_file_path
    soffice_file_path ffmpeg_file_path : Path) (dpi : Z)
    (voice encoding : string) (w : World) :
  Presentation env ppt_file_path = None →
  let d0 := mkdtemp env (tmp_count w) in
  main_process env ppt_file_path output_file_path soffice_file_path
    ffmpeg_file_path dpi voice encoding w
  = (inl (PackageNotFoundError ppt_file_path),
     mkWorld (trace w ++ [EvMkdtemp d0; EvLoadDeck ppt_file_path; EvCleanup d0])
             (executor w) (S (tmp_count w)) (sched w)).
Proof.
  intros Hload d0. unfold main_process.
  erewrite with_TemporaryDirectory_run; cycle 1.
  { apply bind_inl. unfold get_notes_from_ppt_file.
    erewrite bind_inr by apply emit_run. rewrite Hload. reflexivity. }
  fold d0. unfold advance. simpl. by rewrite !app_nil_r, <- !app_assoc.
Qed.

Lemma main_process_load_failure_witness :
  (main_process env_unreadable ["deck.pptx"] ["out.mp4"] ["soffice"]
     ["ffmpeg"] 75 "v" "utf-8" (w0 [])).1
  = inl (PackageNotFoundError ["deck.pptx"]).
Proof.
  exact (f_equal fst (main_process_load_failure env_unreadable ["deck.pptx"]
                        ["out.mp4"] ["soffice"] ["ffmpeg"] 75 "v" "utf-8"
                        (w0 []) eq_refl)).
Defined.

(** ** A task group in which some task fails *)

Lemma submseteq_NoDup_l {A} (l k : list A) : l ⊆+ k → NoDup k → NoDup l.
Proof.
  intros Hsub Hk. apply submseteq_sublist_r in Hsub as (l' & Hperm & Hsl).
  rewrite Hperm. by eapply sublist_NoDup.
Qed.

Lemma bind_option_omap {A B} (f : A → option B) (l : list A) :
  l ≫= (λ i, match f i with Some x => [x] | None => [] end) = omap f l.
Proof.
  induction l as [|x l IH]; [done|]. rewrite bind_cons, IH. simpl.
  by destruct (f x).
Qed.

Lemma omap_pointwise {A B} (f g : A → option B) (l : list A) :
  (∀ x, f x = g x) → omap f l = omap g l.
Proof.
  intros Hfg. induction l as [|x l IH]; [done|].
  cbn [omap list_omap]. by rewrite Hfg, IH.
Qed.

Lemma leave_group_run {A} (done : gmap nat A) (errors : list Exn) (w : World) :
  leave_group done errors w
  = (match errors with
     | [] => inr done
     | _ :: _ => inl (ExceptionGroup errors)
     end, w).
Proof. by destruct errors. Qed.

(** Tasks end in the order the loop chooses.  The group's errors are those
    of the tasks that ran to their end and raised, in that order; if there
    is none, every task ran to its end. *)
Lemma run_tasks_settled {A} (res : nat → result A)
    (evs : nat → list Event) (jobs : nat → list (Pixmap * Path)) (n : nat) :
  ∀ (pending : list (nat * M A)) (done : gmap nat A) (errors : list Exn)
    (w : World),
    length pending = n →
    (∀ id body, (id, body) ∈ pending →
       settles body (res id) (evs id) (jobs id)) →
    ∃ order,
      order ⊆+ pending.*1
      ∧ trace (run_tasks n pending done errors w).2 = trace w ++ order ≫= evs
      ∧ executor (run_tasks n pending done errors w).2
        = executor w ++ order ≫= jobs
      ∧ match errors ++ omap (λ i, error_of (res i)) order with
        | [] => order ≡ₚ pending.*1
                ∧ ∃ done', (run_tasks n pending done errors w).1 = inr done'
        | e :: es =>
            (run_tasks n pending done errors w).1
            = inl (ExceptionGroup (e :: es))
        end.
Proof.
  induction n as [|n IH]; intros pending done errors w Hlen Hbodies.
  - apply nil_length_inv in Hlen as ->. exists []. split; [done|].
    cbn [run_tasks]. rewrite leave_group_run. cbn [fst snd].
    change (@nil nat ≫= evs) with (@nil Event).
    change (@nil nat ≫= jobs) with (@nil (Pixmap * Path)).
    change (omap (λ i, error_of (res i)) []) with (@nil Exn).
    rewrite !app_nil_r. split; [done|]. split; [done|].
    destruct errors; [|done]. split; [done|]. by exists done.
  - set (m := match errors with
              | [] => length pending
              | _ :: _ => S (length pending)
              end).
    destruct (next_choice_spec m w) as (k & Hk & Hnext);
      [unfold m; destruct errors; lia|].
    destruct (pending !! k) as [[id body]|] eqn:Hlook.
    + assert (Hin : (id, body) ∈ pending) by (apply list_elem_of_lookup; eauto).
      assert (Hperm : pending.*1 ≡ₚ id :: (delete k pending).*1).
      { rewrite (delete_Permutation pending k (id, body) Hlook) at 1.
        by rewrite fmap_cons. }
      assert (Hstep : run_tasks (S n) pending done errors w
                = match res id with
                  | inl e => run_tasks n (delete k pending) done (errors ++ [e])
                               (advance w (evs id) (jobs id) 1)
                  | inr a => run_tasks n (delete k pending) (<[id:=a]> done)
                               errors (advance w (evs id) (jobs id) 1)
                  end).
      { cbn [run_tasks]. fold m. unfold bind at 1. rewrite Hnext, Hlook.
        unfold bind, try_. rewrite (Hbodies id body Hin).
        rewrite advance_advance. simpl. by destruct (res id). }
      assert (Hlen' : length (delete k pending) = n)
        by (rewrite length_delete by eauto; lia).
      assert (Hbodies' : ∀ id' body', (id', body') ∈ delete k pending →
                settles body' (res id') (evs id') (jobs id')).
      { intros id' body' Hin'. apply Hbodies. by eapply list_elem_of_delete_inv. }
      rewrite Hstep. destruct (res id) as [e|a] eqn:Hres.
      * destruct (IH (delete k pending) done (errors ++ [e])
                    (advance w (evs id) (jobs id) 1) Hlen' Hbodies')
          as (order & Hsub & Htrace & Hexec & Hout).
        exists (id :: order). split; [rewrite Hperm; by apply submseteq_skip|].
        rewrite Htrace, Hexec, !bind_cons. cbn [advance trace executor].
        rewrite <- !app_assoc. split; [done|]. split; [done|].
        cbn [omap list_omap]. rewrite Hres. cbn [error_of].
        rewrite <- app_assoc in Hout. cbn [app] in Hout.
        destruct (errors ++ e :: omap (λ i, error_of (res i)) order)
          as [|e0 es] eqn:Herrs; [|exact Hout].
        by destruct errors.
      * destruct (IH (delete k pending) (<[id:=a]> done) errors
                    (advance w (evs id) (jobs id) 1) Hlen' Hbodies')
          as (order & Hsub & Htrace & Hexec & Hout).
        exists (id :: order). split; [rewrite Hperm; by apply submseteq_skip|].
        rewrite Htrace, Hexec, !bind_cons. cbn [advance trace executor].
        rewrite <- !app_assoc. split; [done|]. split; [done|].
        cbn [omap list_omap]. rewrite Hres. cbn [error_of].
        destruct (errors ++ omap (λ i, error_of (res i)) order); [|done].
        destruct Hout as [Hp Hdone]. split; [|done]. by rewrite Hperm, Hp.
    + exists []. split; [apply submseteq_nil_l|].
      assert (Hrun : run_tasks (S n) pending done errors w
                = leave_group done errors (advance w [] [] 1)).
      { cbn [run_tasks]. fold m. unfold bind at 1. by rewrite Hnext, Hlook. }
      rewrite Hrun, leave_group_run. cbn [fst snd advance trace executor].
      change (@nil nat ≫= evs) with (@nil Event).
      change (@nil nat ≫= jobs) with (@nil (Pixmap * Path)).
      change (omap (λ i, error_of (res i)) []) with (@nil Exn).
      rewrite !app_nil_r. split; [done|]. split; [done|].
      destruct errors as [|e es]; [|done].
      apply lookup_ge_None in Hlook. unfold m in Hk. lia.
Qed.

(** A group whose block creates its tasks without failing, one of which is
    bound to raise: the group is left with the errors of the tasks that
    ran to their end and raised, at least one; no task ran twice. *)
Lemma TaskGroup_settled {A} (res : nat → result A)
    (evs : nat → list Event) (jobs : nat → list (Pixmap * Path))
    (spawn : M (list (M A))) (bodies : list (M A)) (w : World) :
  spawn w = (inr bodies, w) →
  (∀ i body, bodies !! i = Some body →
     settles body (res i) (evs i) (jobs i)) →
  (∃ k e, k < length bodies ∧ res k = inl e) →
  ∃ order,
    NoDup order
    ∧ (∀ i, i ∈ order → i < length bodies)
    ∧ omap (λ i, error_of (res i)) order ≠ []
    ∧ (TaskGroup spawn w).1
      = inl (ExceptionGroup (omap (λ i, error_of (res i)) order))
    ∧ trace (TaskGroup spawn w).2 = trace w ++ order ≫= evs
    ∧ executor (TaskGroup spawn w).2 = executor w ++ order ≫= jobs.
Proof.
  intros Hspawn Hbodies (k & ek & Hk & Hresk).
  destruct (run_tasks_settled res evs jobs (length bodies)
              (zip (seq 0 (length bodies)) bodies) ∅ [] w)
    as (order & Hsub & Htrace & Hexec & Hout).
  { rewrite length_zip, length_seq. lia. }
  { intros id body Hin. apply list_elem_of_lookup in Hin as [i Hi].
    apply lookup_zip_Some in Hi as [Hid Hb].
    apply lookup_seq in Hid as [-> _]. by apply Hbodies. }
  rewrite fst_zip in Hsub, Hout by (rewrite length_seq; lia).
  cbn [app] in Hout.
  exists order. split.
  { eapply submseteq_NoDup_l; [exact Hsub|apply NoDup_seq]. }
  split.
  { intros i Hi. eapply elem_of_submseteq in Hi; [|exact Hsub].
    apply elem_of_seq in Hi. lia. }
  assert (Hgroup : TaskGroup spawn w
            = let '(r, w') := run_tasks (length bodies)
                                (zip (seq 0 (length bodies)) bodies) ∅ [] w in
              match r with
              | inl e => (inl e, w')
              | inr done => (inr (seq 0 (length bodies), done), w')
              end).
  { unfold TaskGroup, bind at 1, try_. rewrite Hspawn. unfold bind.
    by destruct (run_tasks _ _ _ _ w) as [[e|results] w']. }
  rewrite Hgroup.
  destruct (run_tasks _ _ _ _ w) as [r w'] eqn:Hrt. cbn [fst snd] in *.
  destruct (omap (λ i, error_of (res i)) order) as [|e es] eqn:Herrs.
  - exfalso. destruct Hout as [Hp _].
    assert (Hkin : k ∈ order) by (rewrite Hp; apply elem_of_seq; lia).
    assert (Hek : ek ∈ omap (λ i, error_of (res i)) order).
    { apply list_elem_of_omap. exists k. split; [done|]. by rewrite Hresk. }
    rewrite Herrs in Hek. by apply elem_of_nil in Hek.
  - subst r. by cbn [fst snd].
Qed.

Lemma convert_note_to_audio_settles (env : Env) (note : string) (out : Path)
    (voice : string) :
  settles (convert_note_to_audio env note out voice)
    (if communicate_save env note voice out then inr out
     else inl (SynthesisError out))
    [EvSynth note out voice] [].
Proof.
  intros w. unfold convert_note_to_audio.
  erewrite bind_inr by apply emit_run.
  by destruct (communicate_save env note voice out).
Qed.

(** The audio stage when the synthesis of some note fails. *)
Lemma audio_stage_failure (env : Env) (notes : list string)
    (output_dir : Path) (voice : string) (w : World) :
  let audio := λ i : nat, output_dir // audio_name (S i) in
  let failure := synthesis_failure env notes voice audio in
  (∃ k note, notes !! k = Some note
             ∧ communicate_save env note voice (audio k) = false) →
  let run := convert_notes_to_audio env notes output_dir note_template voice w in
  ∃ order,
    NoDup order
    ∧ (∀ i, i ∈ order → i < length notes)
    ∧ omap failure order ≠ []
    ∧ run.1 = inl (ExceptionGroup (omap failure order))
    ∧ trace run.2
      = trace w ++ omap (λ i, (λ n, EvSynth n (audio i) voice) <$> notes !! i)
                        order.
Proof.
  intros audio failure (k & knote & Hk & Hfail) run.
  set (res := λ i : nat,
         match notes !! i with
         | Some n => if communicate_save env n voice (audio i)
                     then inr (audio i) else inl (SynthesisError (audio i))
         | None => inr (audio i)
         end).
  set (evs := λ i : nat,
         match (λ n, EvSynth n (audio i) voice) <$> notes !! i with
         | Some ev => [ev]
         | None => []
         end).
  set (bodies := (λ t : nat * string,
                    convert_note_to_audio env t.2 (output_dir // audio_name t.1) voice)
                 <$> enumerate 1 notes).
  assert (Hlen : length bodies = length notes)
    by (unfold bodies; by rewrite length_fmap, length_enumerate).
  destruct (TaskGroup_settled res evs (λ _, [])
              (note_tasks env (enumerate 1 notes) output_dir note_template voice [])
              bodies w) as (order & Hnodup & Hrange & Hne & Hres & Htrace & _).
  { rewrite (note_tasks_spawn env note_template audio_name)
      by apply substitute_note_template. done. }
  { intros i body. unfold bodies.
    rewrite list_lookup_fmap, enumerate_lookup. unfold res, evs.
    destruct (notes !! i) as [n|]; [|done]. simpl. intros [= <-].
    apply convert_note_to_audio_settles. }
  { exists k, (SynthesisError (audio k)). split.
    - rewrite Hlen. by eapply lookup_lt_Some.
    - unfold res. by rewrite Hk, Hfail. }
  assert (Herrs : omap (λ i, error_of (res i)) order = omap failure order).
  { apply omap_pointwise. intros i. unfold res, failure, synthesis_failure.
    destruct (notes !! i) as [n|]; [|done].
    by destruct (communicate_save env n voice (audio i)). }
  rewrite Herrs in Hne, Hres.
  exists order. split; [done|]. split; [by rewrite <- Hlen|]. split; [done|].
  unfold run, convert_notes_to_audio. unfold bind.
  destruct (TaskGroup _ w) as [r w'] eqn:Hgroup. cbn [fst snd] in Hres, Htrace.
  subst r. cbn [fst snd]. split; [done|]. rewrite Htrace. f_equal. unfold evs.
  apply (bind_option_omap
           (λ i, (λ n, EvSynth n (audio i) voice) <$> notes !! i)).
Qed.

(** X5.  If the synthesis of some note fails, the audio stage fails
    whatever the completion order and returns no list of paths, not even a
    partial one.  It raises an [ExceptionGroup] that holds, in the order
    they were raised, the [SynthesisError] of every synthesis that ran to
    its end and failed, at least one; the syntheses that ran to their end,
    failed or not, are those of distinct notes, and the others were
    cancelled. *)
Theorem convert_notes_to_audio_all_or_nothing (env : Env)
    (notes : list string) (output_dir : Path) (voice : string) (w : World) :
  let audio := λ i : nat, output_dir // audio_name (S i) in
  let failure := synthesis_failure env notes voice audio in
  (∃ k note, notes !! k = Some note
             ∧ communicate_save env note voice (audio k) = false) →
  let run := convert_notes_to_audio env notes output_dir note_template voice w in
  ∃ order,
    NoDup order
    ∧ (∀ i, i ∈ order → i < length notes)
    ∧ omap failure order ≠ []
    ∧ run.1 = inl (ExceptionGroup (omap failure order))
    ∧ trace run.2
      = trace w ++ omap (λ i, (λ n, EvSynth n (audio i) voice) <$> notes !! i)
                        order.
Proof. apply audio_stage_failure. Qed.

Lemma convert_notes_to_audio_all_or_nothing_witness :
  ∃ errors, errors ≠ []
    ∧ (convert_notes_to_audio env_mute ["one"; "two"] ["audios"]
         note_template "v" (w0 [1])).1
      = inl (ExceptionGroup errors).
Proof.
  destruct (convert_notes_to_audio_all_or_nothing env_mute ["one"; "two"]
              ["audios"] "v" (w0 [1]))
    as (order & _ & _ & Hne & Hrun & _).
  - exists 0, "one". split; reflexivity.
  - eexists. split; [exact Hne | exact Hrun].
Defined.

(** Both syntheses fail before the cancellation lands: the group holds
    both errors, in the order they were raised. *)
Example convert_notes_to_audio_two_errors :
  convert_notes_to_audio env_mute ["one"; "two"] ["audios"] note_template "v"
    (w0 [1; 0])
  = (inl (ExceptionGroup [SynthesisError ["audios"; "note-2.aac"];
                          SynthesisError ["audios"; "note-1.aac"]]),
     mkWorld [EvSynth "two" ["audios"; "note-2.aac"] "v";
              EvSynth "one" ["audios"; "note-1.aac"] "v"] [] 0 []).
Proof. reflexivity. Qed.

(** The cancellation lands right after the first failure: the other
    synthesis never runs to its end. *)
Example convert_notes_to_audio_cancelled :
  convert_notes_to_audio env_mute ["one"; "two"] ["audios"] note_template "v"
    (w0 [1; 1])
  = (inl (ExceptionGroup [SynthesisError ["audios"; "note-2.aac"]]),
     mkWorld [EvSynth "two" ["audios"; "note-2.aac"] "v"] [] 0 []).
Proof. reflexivity. Qed.

Lemma convert_page_to_image_settles (env : Env) (page : Page) (out : Path)
    (dpi : Z) :
  settles (convert_page_to_image env page out dpi)
    (match get_pixmap env page dpi with
     | Some _ => inr out
     | None => inl (PixmapError page)
     end)
    [EvPixmap page dpi]
    (match get_pixmap env page dpi with
     | Some pix => [(pix, out)]
     | None => []
     end).
Proof.
  intros w. unfold convert_page_to_image.
  erewrite bind_inr by apply emit_run.
  destruct (get_pixmap env page dpi) as [pix|]; [|done].
  unfold bind, submit, ret, advance. simpl. by rewrite <- !app_assoc.
Qed.

(** X6.  If some page to render cannot be rasterized, the image stage
    fails whatever the completion order and returns no list of images.  It
    raises an [ExceptionGroup] that holds, in the order they were raised,
    the [PixmapError] of every rasterization whose task ran to its end and
    failed, at least one; the tasks that ran to their end are those of
    distinct pages, each one that succeeded has dispatched its save, the
    others were cancelled before dispatching theirs, and the cleanup of the
    stage's temporary directory ran. *)
Theorem convert_ppt_to_image_all_or_nothing (env : Env)
    (ppt_file_path output_dir : Path) (dpi : Z) (soffice_file_path : Path)
    (encoding : string) (pages : option (list nat)) (w : World) (out : string)
    (pdf : list Page) :
  let d := mkdtemp env (tmp_count w) in
  let cmd := soffice_cmd soffice_file_path d ppt_file_path in
  let pdf_file_path := d // (stem ppt_file_path +:+ ".pdf") in
  let kept := rendered pages pdf in
  let failure := pixmap_failure env kept dpi in
  subprocess env cmd encoding = (0%Z, out, "") →
  pymupdf_open env pdf_file_path = Some pdf →
  (∃ k t, kept !! k = Some t ∧ get_pixmap env t.2 dpi = None) →
  let run := convert_ppt_to_image env ppt_file_path output_dir dpi
               page_template soffice_file_path encoding pages w in
  ∃ order,
    NoDup order
    ∧ (∀ i, i ∈ order → i < length kept)
    ∧ omap failure order ≠ []
    ∧ run.1 = inl (ExceptionGroup (omap failure order))
    ∧ trace run.2
      = trace w ++ [EvMkdtemp d; EvRun cmd; EvOpenPdf pdf_file_path]
          ++ omap (λ i, (λ t, EvPixmap t.2 dpi) <$> kept !! i) order
          ++ [EvCleanup d]
    ∧ executor run.2
      = executor w
          ++ order ≫= (λ i, match kept !! i with
                            | Some t => save_job env output_dir dpi t
                            | None => []
                            end).
Proof.
  intros d cmd pdf_file_path kept failure Hsub Hopen (k & tk & Hk & Hfail) run.
  set (res := λ i : nat,
         match kept !! i with
         | Some t => match get_pixmap env t.2 dpi with
                     | Some _ => inr (output_dir // page_name t.1)
                     | None => inl (PixmapError t.2)
                     end
         | None => inr []
         end).
  set (evs := λ i : nat,
         match (λ t : nat * Page, EvPixmap t.2 dpi) <$> kept !! i with
         | Some ev => [ev]
         | None => []
         end).
  set (jobs := λ i : nat,
         match kept !! i with
         | Some t => save_job env output_dir dpi t
         | None => []
         end).
  set (bodies := (λ t : nat * Page,
                    convert_page_to_image env t.2 (output_dir // page_name t.1) dpi)
                 <$> kept).
  assert (Hlen : length bodies = length kept) by (unfold bodies; by rewrite length_fmap).
  set (w1 := mkWorld (trace w ++ [EvMkdtemp d; EvRun cmd; EvOpenPdf pdf_file_path])
                     (executor w) (S (tmp_count w)) (sched w)).
  destruct (TaskGroup_settled res evs jobs
              (page_tasks env (enumerate 1 pdf) pages output_dir page_template dpi [])
              bodies w1) as (order & Hnodup & Hrange & Hne & Hres & Htrace & Hexec).
  { by rewrite page_tasks_spawn. }
  { intros i body. unfold bodies. rewrite list_lookup_fmap.
    unfold res, evs, jobs, save_job.
    destruct (kept !! i) as [[index page]|] eqn:Hi; simpl; [|done].
    intros [= <-]. apply convert_page_to_image_settles. }
  { exists k, (PixmapError tk.2). split.
    - rewrite Hlen. by eapply lookup_lt_Some.
    - unfold res. by rewrite Hk, Hfail. }
  assert (Herrs : omap (λ i, error_of (res i)) order = omap failure order).
  { apply omap_pointwise. intros i. unfold res, failure, pixmap_failure.
    destruct (kept !! i) as [t|]; [|done].
    by destruct (get_pixmap env t.2 dpi). }
  rewrite Herrs in Hne, Hres.
  exists order. split; [done|]. split; [by rewrite <- Hlen|]. split; [done|].
  destruct (TaskGroup (page_tasks env (enumerate 1 pdf) pages output_dir
                         page_template dpi []) w1) as [r w2] eqn:Hgroup.
  cbn [fst snd] in Hres, Htrace, Hexec. subst r.
  assert (Hwhole : run = (inl (ExceptionGroup (omap failure order)),
                          advance w2 [EvCleanup d] [] 0)).
  { unfold run, convert_ppt_to_image. apply bind_inl.
    apply with_TemporaryDirectory_run. fold d.
    erewrite bind_inr by (apply subprocess_run_zero; exact Hsub).
    cbn [stderr String.length Nat.ltb Nat.leb]. fold pdf_file_path.
    erewrite bind_inr by apply emit_run.
    rewrite Hopen. rewrite !advance_advance.
    replace (advance _ _ _ _) with w1; [exact Hgroup|].
    unfold advance, w1. simpl. by rewrite app_nil_r, <- app_assoc. }
  rewrite Hwhole. split; [done|]. cbn [snd advance trace executor].
  rewrite Htrace, Hexec. unfold w1. cbn [trace executor].
  rewrite app_nil_r, <- !app_assoc. split; [|done]. do 2 f_equal.
  unfold evs. f_equal.
  apply (bind_option_omap (λ i, (λ t', EvPixmap t'.2 dpi) <$> kept !! i)).
Qed.

Lemma convert_ppt_to_image_all_or_nothing_witness :
  ∃ errors, errors ≠ []
    ∧ (convert_ppt_to_image env_blank ["deck.pptx"] ["images"] 75
         page_template ["soffice"] "utf-8" (Some [1]) (w0 [])).1
      = inl (ExceptionGroup errors).
Proof.
  destruct (convert_ppt_to_image_all_or_nothing env_blank ["deck.pptx"]
              ["images"] 75 ["soffice"] "utf-8" (Some [1]) (w0 []) ""
              [{| number := 0 |}] eq_refl eq_refl)
    as (order & _ & _ & Hne & Hrun & _).
  - exists 0, (1, {| number := 0 |}). split; reflexivity.
  - eexists. split; [exact Hne | exact Hrun].
Defined.

(** The first page fails first, and the tasks of the two other pages run
    to their end before the cancellation lands: both pages are rasterized
    and their saves dispatched, and the stage still fails. *)
Example convert_ppt_to_image_renders_after_failure :
  convert_ppt_to_image env_first_page_blank ["deck.pptx"] ["images"] 75
    page_template ["soffice"] "utf-8" (Some [1; 2; 3]) (w0 [0; 0; 0])
  = (inl (ExceptionGroup [PixmapError {| number := 0 |}]),
     mkWorld [EvMkdtemp [""; "tmp"; "tmp0"];
              EvRun (soffice_cmd ["soffice"] [""; "tmp"; "tmp0"] ["deck.pptx"]);
              EvOpenPdf [""; "tmp"; "tmp0"; "deck.pdf"];
              EvPixmap {| number := 0 |} 75;
              EvPixmap {| number := 1 |} 75;
              EvPixmap {| number := 2 |} 75;
              EvCleanup [""; "tmp"; "tmp0"]]
             [({| pix_page := {| number := 1 |}; pix_dpi := 75 |},
               ["images"; "page-2.png"]);
              ({| pix_page := {| number := 2 |}; pix_dpi := 75 |},
               ["images"; "page-3.png"])]
             1 []).
Proof. reflexivity. Qed.

(** The cancellation lands right after the failure of the first page: the
    two other tasks never receive a pixmap and dispatch no save. *)
Example convert_ppt_to_image_cancelled :
  convert_ppt_to_image env_first_page_blank ["deck.pptx"] ["images"] 75
    page_template ["soffice"] "utf-8" (Some [1; 2; 3]) (w0 [0; 2])
  = (inl (ExceptionGroup [PixmapError {| number := 0 |}]),
     mkWorld [EvMkdtemp [""; "tmp"; "tmp0"];
              EvRun (soffice_cmd ["soffice"] [""; "tmp"; "tmp0"] ["deck.pptx"]);
              EvOpenPdf [""; "tmp"; "tmp0"; "deck.pdf"];
              EvPixmap {| number := 0 |} 75;
              EvCleanup [""; "tmp"; "tmp0"]]
             [] 1 []).
Proof. reflexivity. Qed.

Lemma videos_loop_failure (env : Env) (output_dir ffmpeg_file_path : Path)
    (encoding : string) (done : list (nat * Path * Path))
    (item : nat * Path * Path) (rest : list (nat * Path * Path))
    (result : list Path) (w : World) (rc : Z) (out err : string) :
  let cmd := mux_cmd ffmpeg_file_path item.1.2 item.2
               (output_dir // video_name item.1.1) in
  (∀ index image audio, (index, image, audio) ∈ done →
     exits_zero env (mux_cmd ffmpeg_file_path image audio
                       (output_dir // video_name index)) encoding) →
  subprocess env cmd encoding = (rc, out, err) → rc ≠ 0%Z →
  videos_loop env (done ++ item :: rest) output_dir video_template
    ffmpeg_file_path encoding result w
  = (inl (CalledProcessError rc cmd out err),
     advance w
       ((λ t, EvRun (mux_cmd ffmpeg_file_path t.1.2 t.2
                       (output_dir // video_name t.1.1))) <$> done ++ [item])
       [] 0).
Proof.
  intros cmd Hok Hsub Hrc. revert result w.
  induction done as [|[[index image] audio] done IH]; intros result w.
  - destruct item as [[index image] audio]. simpl in *.
    unfold bind at 1, substitute_. rewrite substitute_video_template.
    unfold ret at 1. unfold bind at 1, convert_video, bind at 1.
    fold (mux_cmd ffmpeg_file_path image audio (output_dir // video_name index)).
    fold cmd.
    by rewrite (subprocess_run_nonzero env cmd encoding w rc out err Hsub Hrc).
  - simpl. unfold bind at 1, substitute_. rewrite substitute_video_template.
    unfold ret at 1. unfold bind at 1, convert_video, bind at 1.
    destruct (subprocess_run_ok env
                (mux_cmd ffmpeg_file_path image audio (output_dir // video_name index))
                encoding w) as [output Hrun]; [apply Hok, list_elem_of_here|].
    unfold mux_cmd in Hrun at 1. rewrite Hrun. unfold ret at 1.
    rewrite IH.
    + by rewrite advance_advance.
    + intros index' image' audio' Hin. apply Hok. by apply list_elem_of_further.
Qed.

(** X7.  Muxing stops at the first clip the encoder rejects: the stage
    raises that command's [CalledProcessError], the encoder has been run
    for the positions up to and including the failing one and for no
    later position, and no list of clips is returned. *)
Theorem convert_videos_stops_at_first_failure (env : Env)
    (image_file_paths audio_file_paths : list Path)
    (output_dir ffmpeg_file_path : Path) (encoding : string) (w : World)
    (k : nat) (image audio : Path) (rc : Z) (out err : string) :
  let cmd := mux_cmd ffmpeg_file_path image audio
               (output_dir // video_name (S k)) in
  image_file_paths !! k = Some image →
  audio_file_paths !! k = Some audio →
  subprocess env cmd encoding = (rc, out, err) → rc ≠ 0%Z →
  (∀ i im au, i < k →
     image_file_paths !! i = Some im → audio_file_paths !! i = Some au →
     exits_zero env (mux_cmd ffmpeg_file_path im au
                       (output_dir // video_name (S i))) encoding) →
  let run := convert_videos env image_file_paths audio_file_paths output_dir
               video_template ffmpeg_file_path encoding w in
  run.1 = inl (CalledProcessError rc cmd out err)
  ∧ trace run.2
    = trace w ++ imap (λ i p, EvRun (mux_cmd ffmpeg_file_path p.1 p.2
                                       (output_dir // video_name (S i))))
                      (take (S k) (zip image_file_paths audio_file_paths)).
Proof.
  intros cmd Himage Haudio Hsub Hrc Hbefore run.
  set (items := zip_count 1 image_file_paths audio_file_paths).
  assert (Hitem : items !! k = Some (S k, image, audio)).
  { unfold items. rewrite zip_count_lookup.
    by rewrite (proj2 (lookup_zip_Some _ _ _ _ _) (conj Himage Haudio)). }
  unfold run, convert_videos. fold items.
  rewrite <- (take_drop_middle items k _ Hitem).
  rewrite (videos_loop_failure env output_dir ffmpeg_file_path encoding
             (take k items) (S k, image, audio) (drop (S k) items) [] w
             rc out err); [| |exact Hsub|exact Hrc].
  - simpl. split; [done|]. f_equal.
    assert (Htake : take k items ++ [(S k, image, audio)] = take (S k) items).
    { by rewrite (take_S_r items k _ Hitem). }
    rewrite Htake. unfold items. rewrite zip_count_imap.
    apply list_eq. intros i. rewrite list_lookup_fmap, list_lookup_imap.
    destruct (decide (i < S k)) as [Hi|Hi].
    + rewrite !lookup_take_lt by done. rewrite list_lookup_imap.
      by destruct (zip image_file_paths audio_file_paths !! i).
    + by rewrite !lookup_take_ge by lia.
  - intros index im au Hin. apply list_elem_of_lookup in Hin as [i Hi].
    assert (Hik : i < k).
    { apply lookup_lt_Some in Hi. rewrite length_take in Hi. lia. }
    rewrite lookup_take_lt in Hi by done. unfold items in Hi.
    rewrite zip_count_lookup in Hi.
    destruct (zip image_file_paths audio_file_paths !! i) as [[x y]|] eqn:Hz;
      simplify_eq/=.
    apply lookup_zip_Some in Hz as [Hx Hy]. by apply (Hbefore i).
Qed.

Lemma convert_videos_stops_at_first_failure_witness :
  (convert_videos env_second_clip_fails
     [["page-1.png"]; ["page-2.png"]; ["page-3.png"]]
     [["note-1.aac"]; ["note-2.aac"]; ["note-3.aac"]] ["videos"]
     video_template ["ffmpeg"] "utf-8" (w0 [])).1
  = inl (CalledProcessError 1
           (mux_cmd ["ffmpeg"] ["page-2.png"] ["note-2.aac"]
              ["videos"; "video-2.mp4"]) "" "encode error").
Proof.
  refine (proj1 (convert_videos_stops_at_first_failure env_second_clip_fails
                   [["page-1.png"]; ["page-2.png"]; ["page-3.png"]]
                   [["note-1.aac"]; ["note-2.aac"]; ["note-3.aac"]] ["videos"]
                   ["ffmpeg"] "utf-8" (w0 []) 1 ["page-2.png"] ["note-2.aac"]
                   1 "" "encode error" eq_refl eq_refl eq_refl _ _)).
  - discriminate.
  - intros i im au Hi Him Hau. destruct i as [|i]; [|lia].
    injection Him as <-. injection Hau as <-. reflexivity.
Defined.

(** X8.  A file name template with a placeholder other than [index] makes
    a stage with work to do fail before any external effect: the audio
    stage raises the [KeyError] wrapped in the task group's
    [ExceptionGroup] without any synthesis, the muxing stage raises the
    bare [KeyError] without running the encoder. *)
Theorem unknown_placeholder_is_a_key_error (env : Env)
    (output_filename : Template) (key : string) (output_dir : Path)
    (voice encoding : string) (ffmpeg_file_path : Path)
    (note : string) (notes : list string)
    (image audio : Path) (image_file_paths audio_file_paths : list Path)
    (w : World) :
  substitute output_filename 1 = inl key →
  convert_notes_to_audio env (note :: notes) output_dir output_filename voice w
  = (inl (ExceptionGroup [KeyError key]), w)
  ∧ convert_videos env (image :: image_file_paths) (audio :: audio_file_paths)
      output_dir output_filename ffmpeg_file_path encoding w
    = (inl (KeyError key), w).
Proof.
  intros Hkey. split.
  - unfold convert_notes_to_audio, TaskGroup, bind, try_. simpl.
    unfold bind, substitute_. by rewrite Hkey.
  - unfold convert_videos. simpl. unfold bind, substitute_. by rewrite Hkey.
Qed.

Lemma unknown_placeholder_is_a_key_error_witness :
  convert_notes_to_audio (env_ok deck5 5) ["two"; "five"] ["audios"]
    [Lit "note-"; Var "n"; Lit ".aac"] "v" (w0 [])
  = (inl (ExceptionGroup [KeyError "n"]), w0 []).
Proof.
  exact (proj1 (unknown_placeholder_is_a_key_error (env_ok deck5 5)
                  [Lit "note-"; Var "n"; Lit ".aac"] "n" ["audios"] "v"
                  "utf-8" ["ffmpeg"] "two" ["five"] ["i"] ["a"] [] []
                  (w0 []) eq_refl)).
Defined.

Lemma rendered_all (pdf : list Page) : rendered None pdf = enumerate 1 pdf.
Proof.
  unfold rendered. generalize 1.
  induction pdf as [|page pdf IH]; intros start; [done|]. simpl. by rewrite IH.
Qed.

(** X9.  Called without a page filter, the image stage renders every page
    of the converted document and returns [page-1.png], [page-2.png], ...
    in page order, one path per page. *)
Theorem convert_ppt_to_image_without_filter (env : Env)
    (ppt_file_path output_dir : Path) (dpi : Z) (soffice_file_path : Path)
    (encoding : string) (w : World) (out : string) (pdf : list Page) :
  let d := mkdtemp env (tmp_count w) in
  subprocess env (soffice_cmd soffice_file_path d ppt_file_path) encoding
  = (0%Z, out, "") →
  pymupdf_open env (d // (stem ppt_file_path +:+ ".pdf")) = Some pdf →
  (∀ page, page ∈ pdf → is_Some (get_pixmap env page dpi)) →
  let run := convert_ppt_to_image env ppt_file_path output_dir dpi
               page_template soffice_file_path encoding None w in
  run.1 = inr (imap (λ i _, output_dir // page_name (S i)) pdf)
  ∧ ∃ pixmaps, pixmaps ≡ₚ (λ page, EvPixmap page dpi) <$> pdf
      ∧ trace run.2
        = trace w
          ++ [EvMkdtemp d;
              EvRun (soffice_cmd soffice_file_path d ppt_file_path);
              EvOpenPdf (d // (stem ppt_file_path +:+ ".pdf"))]
          ++ pixmaps ++ [EvCleanup d].
Proof.
  intros d Hsub Hopen Hpix run.
  destruct (convert_ppt_to_image_run env ppt_file_path output_dir dpi
              soffice_file_path encoding None w out pdf Hsub Hopen)
    as (evs & jobs & Hevs & _ & Hrun).
  { rewrite rendered_all. intros index page Hin. apply Hpix.
    apply elem_of_enumerate in Hin as [_ Hl]. apply list_elem_of_lookup. eauto. }
  rewrite rendered_all in Hevs, Hrun. unfold run. rewrite Hrun. simpl. split.
  - f_equal. apply list_eq. intros i.
    rewrite list_lookup_fmap, enumerate_lookup, list_lookup_imap.
    by destruct (pdf !! i).
  - exists evs. split; [|done]. rewrite Hevs.
    assert (Heq : (λ t : nat * Page, EvPixmap t.2 dpi) <$> enumerate 1 pdf
                  = (λ page, EvPixmap page dpi) <$> pdf); [|by rewrite Heq].
    apply list_eq. intros i. rewrite !list_lookup_fmap, enumerate_lookup.
    by destruct (pdf !! i).
Qed.

Lemma convert_ppt_to_image_without_filter_witness :
  (convert_ppt_to_image (env_ok deck5 3) ["deck.pptx"] ["images"] 75
     page_template ["soffice"] "utf-8" None (w0 [])).1
  = inr [["images"; "page-1.png"]; ["images"; "page-2.png"];
         ["images"; "page-3.png"]].
Proof.
  refine (proj1 (convert_ppt_to_image_without_filter (env_ok deck5 3)
                   ["deck.pptx"] ["images"] 75 ["soffice"] "utf-8" (w0 []) ""
                   (map (λ n, {| number := n |}) (seq 0 3)) eq_refl eq_refl _)).
  intros page _. simpl. eauto.
Defined.

(** X11.  If the synthesis of some kept note fails, the run fails with the
    audio stage's [ExceptionGroup], which holds the [SynthesisError] of
    every synthesis that ran to its end and failed, at least one.  Between
    the creation of the audio directory and the cleanup of the work area
    the run performs syntheses only: no subprocess is launched, neither the
    document converter nor the encoder. *)
Theorem main_process_synthesis_failure (env : Env) (ppt_file_path
    output_file_path soffice_file_path ffmpeg_file_path : Path) (dpi : Z)
    (voice encoding : string) (slides : list Slide) (w : World) :
  let notes := available_notes (get_note_from_slide <$> slides) in
  let d0 := mkdtemp env (tmp_count w) in
  let audio := λ i : nat, d0 // "audios" // audio_name (S i) in
  let failure := synthesis_failure env notes voice audio in
  Presentation env ppt_file_path = Some slides →
  (∃ k note, notes !! k = Some note
             ∧ communicate_save env note voice (audio k) = false) →
  let run := main_process env ppt_file_path output_file_path
               soffice_file_path ffmpeg_file_path dpi voice encoding w in
  ∃ order,
    NoDup order
    ∧ omap failure order ≠ []
    ∧ run.1 = inl (ExceptionGroup (omap failure order))
    ∧ trace run.2
      = trace w ++ [EvMkdtemp d0; EvLoadDeck ppt_file_path;
                    EvMkdir (d0 // "audios")]
          ++ omap (λ i, (λ n, EvSynth n (audio i) voice) <$> notes !! i) order
          ++ [EvCleanup d0].
Proof.
  intros notes d0 audio failure Hload Hfail run.
  set (w1 := mkWorld (trace w ++ [EvMkdtemp d0]) (executor w) (S (tmp_count w))
                     (sched w)).
  set (w2 := advance w1 [EvLoadDeck ppt_file_path; EvMkdir (d0 // "audios")] [] 0).
  destruct (audio_stage_failure env notes (d0 // "audios") voice w2 Hfail)
    as (order & Hnodup & _ & Hne & Hres & Htrace).
  exists order. split; [done|]. split; [done|].
  destruct (convert_notes_to_audio env notes (d0 // "audios") note_template
              voice w2) as [r w3] eqn:Hstage.
  cbn [fst snd] in Hres, Htrace. subst r.
  assert (Hrun : run = (inl (ExceptionGroup (omap failure order)),
                        advance w3 [EvCleanup d0] [] 0)).
  { unfold run, main_process. apply with_TemporaryDirectory_run. fold d0 w1.
    erewrite bind_inr by (by apply get_notes_from_ppt_file_run).
    erewrite bind_inr by apply emit_run.
    rewrite advance_advance. simpl app. fold w2. fold notes.
    by apply bind_inl. }
  rewrite Hrun. split; [done|].
  cbn [snd trace advance]. rewrite Htrace. unfold w2, w1.
  cbn [trace advance]. by rewrite <- !app_assoc.
Qed.

Lemma main_process_synthesis_failure_witness :
  ∃ errors, errors ≠ []
    ∧ (main_process env_mute ["deck.pptx"] ["out.mp4"] ["soffice"]
         ["ffmpeg"] 75 "v" "utf-8" (w0 [1])).1
      = inl (ExceptionGroup errors).
Proof.
  destruct (main_process_synthesis_failure env_mute ["deck.pptx"] ["out.mp4"]
              ["soffice"] ["ffmpeg"] 75 "v" "utf-8"
              [slide_with "one"; slide_with "two"] (w0 [1]) eq_refl)
    as (order & _ & Hne & Hrun & _).
  - exists 0, "one". split; reflexivity.
  - eexists. split; [exact Hne | exact Hrun].
Defined.

(** * Properties of the voice listing *)

Lemma pretty_format_list (items : list Obj) (depth : nat) :
  pretty_format (OList items) depth
  = String.concat nl (map (λ item, pretty_format item depth) items).
Proof.
  assert (Hloop : ∀ result,
            (fix each (items : list Obj) (result : list string) : list string :=
               match items with
               | [] => result
               | item :: items' =>
                   each items' (result ++ [pretty_format item depth])
               end) items result
            = result ++ map (λ item, pretty_format item depth) items).
  { induction items as [|item items IH]; intros result.
    - by rewrite app_nil_r.
    - rewrite IH. by rewrite <- app_assoc. }
  exact (f_equal (String.concat nl) (Hloop [])).
Qed.

Lemma pretty_format_dict (entries : list (string * Obj)) (depth : nat) :
  pretty_format (ODict entries) depth
  = String.concat nl
      (concat (map (λ '(k, v),
                      match v with
                      | OStr s => [(indent depth +:+ k) +:+ ": " +:+ s]
                      | _ => [(indent depth +:+ k) +:+ ":";
                              pretty_format v (S depth)]
                      end) entries)
       ++ (if depth =? 0 then [""] else [])).
Proof.
  assert (Hloop : ∀ result,
            (fix items (entries : list (string * Obj)) (result : list string)
               : list string :=
               match entries with
               | [] => result
               | (k, v) :: entries' =>
                   let k_str := string_mul (string_mul " " 2) depth +:+ k in
                   match v with
                   | OStr s => items entries' (result ++ [k_str +:+ ": " +:+ s])
                   | _ =>
                       let v_str := pretty_format v (S depth) in
                       items entries' ((result ++ [k_str +:+ ":"]) ++ [v_str])
                   end
               end) entries result
            = result
              ++ concat (map (λ '(k, v),
                                match v with
                                | OStr s => [(indent depth +:+ k) +:+ ": " +:+ s]
                                | _ => [(indent depth +:+ k) +:+ ":";
                                        pretty_format v (S depth)]
                                end) entries)).
  { induction entries as [|[k v] entries IH]; intros result.
    - by rewrite app_nil_r.
    - cbn [map concat]. destruct v as [s|items|entries'];
        rewrite IH; unfold indent; by rewrite <- !app_assoc. }
  change (pretty_format (ODict entries) depth)
    with (String.concat nl
            (if depth =? 0
             then (fix items (entries : list (string * Obj))
                     (result : list string) : list string :=
                     match entries with
                     | [] => result
                     | (k, v) :: entries' =>
                         let k_str := string_mul (string_mul " " 2) depth +:+ k in
                         match v with
                         | OStr s =>
                             items entries' (result ++ [k_str +:+ ": " +:+ s])
                         | _ =>
                             let v_str := pretty_format v (S depth) in
                             items entries'
                               ((result ++ [k_str +:+ ":"]) ++ [v_str])
                         end
                     end) entries [] ++ [""]
             else (fix items (entries : list (string * Obj))
                     (result : list string) : list string :=
                     match entries with
                     | [] => result
                     | (k, v) :: entries' =>
                         let k_str := string_mul (string_mul " " 2) depth +:+ k in
                         match v with
                         | OStr s =>
                             items entries' (result ++ [k_str +:+ ": " +:+ s])
                         | _ =>
                             let v_str := pretty_format v (S depth) in
                             items entries'
                               ((result ++ [k_str +:+ ":"]) ++ [v_str])
                         end
                     end) entries [])).
  rewrite !Hloop. f_equal. destruct (depth =? 0); [done|by rewrite app_nil_r].
Qed.

Lemma string_app_assoc (a b c : string) : (a +:+ b) +:+ c = a +:+ b +:+ c.
Proof.
  induction a as [|x a IH]; [done|].
  change (String x ((a +:+ b) +:+ c) = String x (a +:+ b +:+ c)).
  by rewrite IH.
Qed.

Lemma join_cons (x : string) (xs : list string) :
  xs ≠ [] → String.concat nl (x :: xs) = x +:+ nl +:+ String.concat nl xs.
Proof. by destruct xs. Qed.

Lemma join_app (xs ys : list string) :
  xs ≠ [] → ys ≠ [] →
  String.concat nl (xs ++ ys)
  = String.concat nl xs +:+ nl +:+ String.concat nl ys.
Proof.
  intros Hxs Hys. induction xs as [|x xs IH]; [done|].
  destruct xs as [|x' xs].
  - simpl app. by rewrite join_cons.
  - rewrite <- app_comm_cons, join_cons by done.
    rewrite IH by done. rewrite (join_cons x (x' :: xs)) by done.
    by rewrite !string_app_assoc.
Qed.

Lemma join_or_blank (lines : list string) :
  String.concat nl (or_blank lines) = String.concat nl lines.
Proof. by destruct lines. Qed.

Lemma or_blank_not_nil (lines : list string) : or_blank lines ≠ [].
Proof. by destruct lines. Qed.

Lemma same_text_nil : same_text [] [].
Proof. done. Qed.

Lemma same_text_refl (lines : list string) : same_text lines lines.
Proof. done. Qed.

Lemma same_text_app (s1 s2 l1 l2 : list string) :
  same_text s1 l1 → same_text s2 l2 → same_text (s1 ++ s2) (l1 ++ l2).
Proof.
  intros [H1 E1] [H2 E2]. split.
  - destruct (decide (s1 = [])) as [->|N1].
    { rewrite (proj1 E1 eq_refl). done. }
    destruct (decide (s2 = [])) as [->|N2].
    { rewrite (proj1 E2 eq_refl), !app_nil_r. done. }
    rewrite !join_app, H1, H2; [done| | |done|done].
    + intros Hl. by apply N1, E1.
    + intros Hl. by apply N2, E2.
  - split; intros H; apply app_eq_nil in H as [Ha Hb].
    + by rewrite (proj1 E1 Ha), (proj1 E2 Hb).
    + by rewrite (proj2 E1 Ha), (proj2 E2 Hb).
Qed.

Lemma same_text_joined (lines : list string) :
  lines ≠ [] → same_text [String.concat nl lines] lines.
Proof. intros Hl. split; [done|]. by split. Qed.

(** X12.  [pretty_format] prints, joined by newlines: a string, indented
    by two spaces per level of depth; the lines of every item of a list,
    at the same depth; for every entry of a dict either [key: value] on
    one line when the value is a string, or [key:] followed by the lines
    of the value one level deeper; one empty line after a dict printed at
    depth zero; and one empty line in place of an empty list or of an
    empty nested dict. *)
Theorem pretty_format_prints_lines (obj : Obj) (depth : nat) :
  pretty_format obj depth = String.concat nl (pretty_lines obj depth)
  ∧ pretty_lines obj depth ≠ [].
Proof.
  revert depth. induction obj as [s|items IH|entries IH] using Obj_rect_nested;
    intros depth.
  - done.
  - split; [|apply or_blank_not_nil].
    rewrite pretty_format_list. cbn [pretty_lines]. rewrite join_or_blank.
    assert (Hsame : same_text (map (λ item, pretty_format item depth) items)
                      (concat (map (λ item, pretty_lines item depth) items))).
    { induction IH as [|item items Hitem _ IHitems]; [apply same_text_nil|].
      cbn [map concat]. destruct (Hitem depth) as [-> Hne].
      apply (same_text_app [_]); [by apply same_text_joined|done]. }
    apply Hsame.
  - split; [|apply or_blank_not_nil].
    rewrite pretty_format_dict. cbn [pretty_lines]. rewrite join_or_blank.
    apply same_text_app; [|destruct (depth =? 0); apply same_text_refl].
    induction IH as [|[k v] entries Hv _ IHentries]; [apply same_text_nil|].
    cbn [map concat]. apply same_text_app; [|done].
    simpl in Hv. destruct (Hv (S depth)) as [Hpf Hne].
    destruct v as [s|items|entries']; [apply same_text_refl| |];
      rewrite Hpf; apply (same_text_app [_] [_] [_]);
      (apply same_text_refl || by apply same_text_joined).
Qed.

(** A voice record of strings with a nested list, as edge-tts returns
    them. *)
Example pretty_format_voice :
  pretty_format
    (OList [ODict [("Name", OStr "x");
                   ("Tag", ODict [("Cats", OList [OStr "a"; OStr "b"]);
                                  ("None", OList [])]);
                   ("Lang", OStr "en")];
            ODict [("Name", OStr "y")]]) 0
  = String.concat nl
      ["Name: x"; "Tag:"; "  Cats:"; "    a"; "    b"; "  None:"; "";
       "Lang: en"; ""; "Name: y"; ""].
Proof. reflexivity. Qed.
